(** * On-Model Assistant: the state logic of [App]

    A shallow embedding of the state held by the [App] component
    (src/types.ts, second document: the React component) and of the
    handlers that update it: the three lazy [useState] initialisers that
    read [localStorage], [handleFileUpload], [handleRunCorrection],
    [handlePromoteToSource], [clearHistory], the history replay click, the
    view-mode buttons and the settings controls.

    Conventions.
    - A React state cell is a field of [AppState]; a handler is a function
      from a state (and the data the platform hands to it) to the next state.
    - Values whose shape the program does not control at run time (what
      [JSON.parse] returns) are JavaScript values, [Value].  TypeScript's
      types are erased, so a field typed [CorrectionMode] may hold any
      string.
    - Settings objects live in an object store ([heap]) and are denoted by
      locations, so that sharing between the current settings and the
      settings recorded in a history entry can be stated.
    - Platform services ([localStorage], [JSON.parse], [Date.now], the
      provider [correctArt]) are not code of the component: their results
      are inputs of the model. *)

From Stdlib Require Import ZArith QArith.
From stdpp Require Import base option strings list gmap pretty.

#[local] Set Warnings "-register-all".
#[local] Open Scope Z_scope.

(** ** JavaScript values *)

(** Numbers are rationals: every number the component itself writes is an
    integer ([parseInt], literals), and [JSON.parse] yields decimal
    fractions.  An object is the ordered list of its own properties. *)
Inductive Value : Type :=
| VUndefined
| VNull
| VBool (b : bool)
| VNum (q : Q)
| VStr (s : string)
| VArr (xs : list Value)
| VObj (kvs : list (string * Value)).

(** [o.k] on the own properties of an object: [undefined] when absent. *)
Fixpoint lookupField (k : string) (kvs : list (string * Value)) : Value :=
  match kvs with
  | [] => VUndefined
  | (k', v) :: rest => if String.eqb k k' then v else lookupField k rest
  end.

(** [{..., k: v}] after the properties [kvs]: an existing key keeps its
    place and takes the new value, a new key goes last. *)
Fixpoint setField (k : string) (v : Value) (kvs : list (string * Value))
  : list (string * Value) :=
  match kvs with
  | [] => [(k, v)]
  | (k', v') :: rest =>
      if String.eqb k k' then (k, v) :: rest else (k', v') :: setField k v rest
  end.

(** The own enumerable properties copied by a spread [{...v}]: those of an
    object, the indexed elements of an array, the indexed characters of a
    string, nothing for the other primitives, [null] and [undefined]. *)
Definition ownEntries (v : Value) : list (string * Value) :=
  match v with
  | VObj kvs => kvs
  | VArr xs => imap (fun i x => (pretty i, x)) xs
  | VStr s =>
      imap (fun i a => (pretty i, VStr (String a EmptyString)))
           (String.list_ascii_of_string s)
  | _ => []
  end.

(** [v.k] for a key that is not a built-in member of arrays and strings
    (the component reads [id] this way): a [TypeError] ([None]) on [null]
    and [undefined], the own property of an object, [undefined] otherwise. *)
Definition getProp (k : string) (v : Value) : option Value :=
  match v with
  | VUndefined | VNull => None
  | VObj kvs => Some (lookupField k kvs)
  | _ => Some VUndefined
  end.

(** Truthiness of a [string | null] state cell: [null] and the empty
    string are falsy. *)
Definition truthy (o : option string) : bool :=
  match o with
  | Some s => negb (String.eqb s "")
  | None => false
  end.

(** ** types.ts *)

Inductive ViewMode : Type := Before | After | Overlay.

#[global] Instance ViewMode_eq_dec : EqDecision ViewMode.
Proof. solve_decision. Defined.

(** The three string-literal unions, as the lists of their members; at run
    time the fields hold strings. *)
Definition CorrectionMode : list string :=
  ["Proportion (Mode A)"; "Conditioned (Mode B)"].
Definition AngleTag : list string :=
  ["Front"; "3/4 View"; "Profile"; "Upshot"; "Downshot"; "Generic"].
Definition AutoCorrectionScope : list string :=
  ["Full Image"; "Face Priority"; "Clothing Priority"; "Hands Priority"].

Module ReferenceImage.
Record t : Type := mk {
  id : string;
  packId : string;
  data : string;
  tags : list string;
  similarity : option Q
}.
End ReferenceImage.

Module CorrectionMetrics.
Record t : Type := mk {
  mask_coverage : Q;
  denoise_used : Q;
  diff_in_mask : Q;
  diff_outside_mask : Q;
  absolute_line_fidelity : bool
}.
End CorrectionMetrics.

(** A location of the object store. *)
Definition loc : Type := nat.

Module EditSession.
(** [settings] is a reference to a settings object. *)
Record t : Type := mk {
  id : string;
  originalImage : string;
  resultImage : string;
  settings : loc;
  timestamp : Z;
  metrics : CorrectionMetrics.t
}.
End EditSession.

Record Dimensions : Type := { width : Z; height : Z }.

(** ** The state of [App] *)

Record AppState : Type := mkApp {
  originalImage : option string;
  correctedImage : option string;
  imageDimensions : Dimensions;
  isProcessing : bool;
  errorMsg : option string;
  viewMode : ViewMode;
  history : list EditSession.t;
  packs : Value;
  retrievedRefs : list ReferenceImage.t;
  selectedPackIds : Value;
  settings : loc;
  heap : list Value
}.

(** The object a reference denotes. *)
Definition deref (h : list Value) (l : loc) : Value :=
  default VUndefined (h !! l).

(** The settings object of a state and its fields, as [settings.k] reads
    them when [settings] is an object. *)
Definition currentSettings (s : AppState) : Value := deref (heap s) (settings s).

Definition field (k : string) (v : Value) : Value := lookupField k (ownEntries v).

(** State setters, one per [set...] function of the component. *)
Definition setOriginalImage (v : option string) (s : AppState) : AppState :=
  mkApp v (correctedImage s) (imageDimensions s) (isProcessing s) (errorMsg s)
        (viewMode s) (history s) (packs s) (retrievedRefs s)
        (selectedPackIds s) (settings s) (heap s).
Definition setCorrectedImage (v : option string) (s : AppState) : AppState :=
  mkApp (originalImage s) v (imageDimensions s) (isProcessing s) (errorMsg s)
        (viewMode s) (history s) (packs s) (retrievedRefs s)
        (selectedPackIds s) (settings s) (heap s).
Definition setImageDimensions (v : Dimensions) (s : AppState) : AppState :=
  mkApp (originalImage s) (correctedImage s) v (isProcessing s) (errorMsg s)
        (viewMode s) (history s) (packs s) (retrievedRefs s)
        (selectedPackIds s) (settings s) (heap s).
Definition setIsProcessing (v : bool) (s : AppState) : AppState :=
  mkApp (originalImage s) (correctedImage s) (imageDimensions s) v (errorMsg s)
        (viewMode s) (history s) (packs s) (retrievedRefs s)
        (selectedPackIds s) (settings s) (heap s).
Definition setErrorMsg (v : option string) (s : AppState) : AppState :=
  mkApp (originalImage s) (correctedImage s) (imageDimensions s)
        (isProcessing s) v (viewMode s) (history s) (packs s)
        (retrievedRefs s) (selectedPackIds s) (settings s) (heap s).
Definition setViewMode (v : ViewMode) (s : AppState) : AppState :=
  mkApp (originalImage s) (correctedImage s) (imageDimensions s)
        (isProcessing s) (errorMsg s) v (history s) (packs s)
        (retrievedRefs s) (selectedPackIds s) (settings s) (heap s).
(** [setHistory(prev => f prev)]. *)
Definition setHistory (f : list EditSession.t -> list EditSession.t)
    (s : AppState) : AppState :=
  mkApp (originalImage s) (correctedImage s) (imageDimensions s)
        (isProcessing s) (errorMsg s) (viewMode s) (f (history s)) (packs s)
        (retrievedRefs s) (selectedPackIds s) (settings s) (heap s).
Definition setPacks (v : Value) (s : AppState) : AppState :=
  mkApp (originalImage s) (correctedImage s) (imageDimensions s)
        (isProcessing s) (errorMsg s) (viewMode s) (history s) v
        (retrievedRefs s) (selectedPackIds s) (settings s) (heap s).
Definition setRetrievedRefs (v : list ReferenceImage.t) (s : AppState)
  : AppState :=
  mkApp (originalImage s) (correctedImage s) (imageDimensions s)
        (isProcessing s) (errorMsg s) (viewMode s) (history s) (packs s)
        v (selectedPackIds s) (settings s) (heap s).
Definition setSelectedPackIds (v : Value) (s : AppState) : AppState :=
  mkApp (originalImage s) (correctedImage s) (imageDimensions s)
        (isProcessing s) (errorMsg s) (viewMode s) (history s) (packs s)
        (retrievedRefs s) v (settings s) (heap s).

(** Allocation of a new object: the store grows by one cell, whose
    location is returned with the state. *)
Definition alloc (v : Value) (s : AppState) : loc * AppState :=
  (length (heap s),
   mkApp (originalImage s) (correctedImage s) (imageDimensions s)
         (isProcessing s) (errorMsg s) (viewMode s) (history s) (packs s)
         (retrievedRefs s) (selectedPackIds s) (settings s)
         (heap s ++ [v])).

(** [setSettings(r)] for a reference [r]. *)
Definition setSettingsRef (r : loc) (s : AppState) : AppState :=
  mkApp (originalImage s) (correctedImage s) (imageDimensions s)
        (isProcessing s) (errorMsg s) (viewMode s) (history s) (packs s)
        (retrievedRefs s) (selectedPackIds s) r (heap s).

(** [setSettings({...settings, k: v})]: a new object, built from the own
    properties of the current one; the current object is not written. *)
Definition setSettings (k : string) (v : Value) (s : AppState) : AppState :=
  let '(r, s') := alloc (VObj (setField k v (ownEntries (currentSettings s)))) s in
  setSettingsRef r s'.

(** ** Persisted records: [localStorage] and [JSON.parse] *)

(** What the platform does with a call: it returns or it throws. *)
Inductive Outcome (A : Type) : Type :=
| Returns (a : A)
| Throws.
Arguments Returns {A} a.
Arguments Throws {A}.

(** The text stored under a key, by what [JSON.parse] makes of it: the
    empty text, a non-empty text that is not JSON, a non-empty text that
    parses to a value. *)
Inductive StoredText : Type :=
| EmptyText
| Malformed
| Parses (v : Value).

(** [accessible = false]: every access to the storage throws (storage
    denied by the browser). *)
Record LocalStorage : Type := {
  accessible : bool;
  items : gmap string StoredText
}.

Definition getItem (ls : LocalStorage) (key : string)
  : Outcome (option StoredText) :=
  if accessible ls then Returns (items ls !! key) else Throws.

Definition JSON_parse (t : StoredText) : Outcome Value :=
  match t with
  | Parses v => Returns v
  | EmptyText | Malformed => Throws
  end.

Definition truthyText (t : StoredText) : bool :=
  match t with
  | EmptyText => false
  | Malformed | Parses _ => true
  end.

(** The body shared by the three initialisers:
    [try { const saved = localStorage.getItem(key);
           if (saved) return JSON.parse(saved); } catch (e) {}]
    [Some v]: the initialiser returns [v]; [None]: control reaches the
    default after the [try]. *)
Definition loadSaved (ls : LocalStorage) (key : string) : option Value :=
  match getItem ls key with
  | Returns (Some saved) =>
      if truthyText saved then
        match JSON_parse saved with
        | Returns v => Some v
        | Throws => None
        end
      else None
  | Returns None => None
  | Throws => None
  end.

(** ** Initial state *)

Definition seedPack (id name description : string) (createdAt : Z) : Value :=
  VObj [("id", VStr id); ("name", VStr name);
        ("description", VStr description); ("images", VArr []);
        ("createdAt", VNum (inject_Z createdAt))].

(** [now1], [now2]: the two readings of [Date.now()]. *)
Definition seedPacks (now1 now2 : Z) : Value :=
  VArr [seedPack "1" "Standard Anime Eyes" "Clean eye references." now1;
        seedPack "2" "Profile Jawlines" "Sharp chin silhouttes." now2].

Definition defaultSettings : Value :=
  VObj [("strength", VNum 50);
        ("linePreservation", VNum 85);
        ("mode", VStr "Proportion (Mode A)");
        ("angleTag", VStr "3/4 View");
        ("scope", VStr "Full Image");
        ("absoluteLineFidelity", VBool true)].

Definition initPacks (ls : LocalStorage) (now1 now2 : Z) : Value :=
  default (seedPacks now1 now2) (loadSaved ls "art_packs").

(** [packs.map(p => p.id)]: a [TypeError] ([None]) when [packs] is not an
    array or has a [null] element. *)
Definition packIds (packs : Value) : option Value :=
  match packs with
  | VArr ps => VArr <$> mapM (getProp "id") ps
  | _ => None
  end.

(** The default of this initialiser is computed outside the [try]. *)
Definition initSelectedPackIds (ls : LocalStorage) (packs : Value)
  : option Value :=
  match loadSaved ls "art_selected_packs" with
  | Some v => Some v
  | None => packIds packs
  end.

Definition initSettings (ls : LocalStorage) : Value :=
  default defaultSettings (loadSaved ls "art_settings_v6").

(** The state after the first evaluation of the [useState] calls; [None]
    when an initialiser throws. *)
Definition initialState (ls : LocalStorage) (now1 now2 : Z) : option AppState :=
  let packs := initPacks ls now1 now2 in
  match initSelectedPackIds ls packs with
  | None => None
  | Some selected =>
      Some {| originalImage := None;
              correctedImage := None;
              imageDimensions := {| width := 1024; height := 1024 |};
              isProcessing := false;
              errorMsg := None;
              viewMode := After;
              history := [];
              packs := packs;
              retrievedRefs := [];
              selectedPackIds := selected;
              settings := 0%nat;
              heap := [initSettings ls] |}
  end.

(** ** Handlers *)

(** What [handleFileUpload] ends with when a file was chosen, read and
    decoded: the data URL and the size of the image.  [None]: no file, or
    a callback that never fires. *)
Record LoadedImage : Type := { base64 : string; imgWidth : Z; imgHeight : Z }.

Definition handleFileUpload (file : option LoadedImage) (s : AppState)
  : AppState :=
  match file with
  | Some img =>
      setErrorMsg None
        (setCorrectedImage None
          (setOriginalImage (Some (base64 img))
            (setImageDimensions
               {| width := imgWidth img; height := imgHeight img |} s)))
  | None => s
  end.

(** The arguments of one call of the provider, [correctArt]. *)
Record ProviderCall : Type := {
  pcSource : string;
  pcSettings : Value;
  pcReferences : list ReferenceImage.t;
  pcDimensions : Dimensions
}.

(** How the promise returned by [correctArt] settles.  [RejectedOther]
    stands for every value thrown inside the [try] that is not an instance
    of [CorrectionFailedError]. *)
Inductive ProviderOutcome : Type :=
| Resolved (resultImage : string) (metrics : CorrectionMetrics.t)
| RejectedCorrectionFailed (message : string)
| RejectedOther.

(** The values of the render in which [handleRunCorrection] was created,
    as the suspended call holds them across the [await]. *)
Record Closure : Type := {
  cOriginalImage : string;
  cSettings : loc;
  cRetrievedRefs : list ReferenceImage.t;
  cImageDimensions : Dimensions
}.

Definition noImageMessage : string := "Upload an image first.".
Definition interruptedMessage : string := "Refinement process interrupted.".

(** [handleRunCorrection] up to the [await]: the guard, then the two
    setters; with the closure when the provider is to be called. *)
Definition runBegin (s : AppState) : AppState * option Closure :=
  match originalImage s with
  | Some img =>
      if truthy (Some img) then
        (setIsProcessing true (setErrorMsg None s),
         Some {| cOriginalImage := img;
                 cSettings := settings s;
                 cRetrievedRefs := retrievedRefs s;
                 cImageDimensions := imageDimensions s |})
      else (setErrorMsg (Some noImageMessage) s, None)
  | None => (setErrorMsg (Some noImageMessage) s, None)
  end.

Definition providerCall (c : Closure) (s : AppState) : ProviderCall :=
  {| pcSource := cOriginalImage c;
     pcSettings := deref (heap s) (cSettings c);
     pcReferences := cRetrievedRefs c;
     pcDimensions := cImageDimensions c |}.

(** [[newSession, ...prev].slice(0, 20)]. *)
Definition append (newSession : EditSession.t) (prev : list EditSession.t)
  : list EditSession.t :=
  take 20 (newSession :: prev).

(** [handleRunCorrection] from the point where the promise settles: the
    rest of the [try] block or the [catch] block, then [finally].
    [nowId], [nowTs]: the two readings of [Date.now()]. *)
Definition runSettle (c : Closure) (o : ProviderOutcome) (nowId nowTs : Z)
    (s : AppState) : AppState :=
  match o with
  | Resolved resultImage metrics =>
      let s1 := setCorrectedImage (Some resultImage) s in
      let '(snapshot, s2) :=
        alloc (VObj (ownEntries (deref (heap s1) (cSettings c)))) s1 in
      let newSession :=
        EditSession.mk (pretty nowId) (cOriginalImage c) resultImage
                       snapshot nowTs metrics in
      setIsProcessing false
        (setViewMode After (setHistory (append newSession) s2))
  | RejectedCorrectionFailed message =>
      setIsProcessing false (setErrorMsg (Some message) s)
  | RejectedOther =>
      setIsProcessing false (setErrorMsg (Some interruptedMessage) s)
  end.

(** One whole run of [handleRunCorrection] with nothing in between, and
    the calls it made to the provider. *)
Definition handleRunCorrection (correctArt : ProviderCall -> ProviderOutcome)
    (nowId nowTs : Z) (s : AppState) : AppState * list ProviderCall :=
  match runBegin s with
  | (s1, Some c) =>
      let call := providerCall c s1 in
      (runSettle c (correctArt call) nowId nowTs s1, [call])
  | (s1, None) => (s1, [])
  end.

Definition handlePromoteToSource (s : AppState) : AppState :=
  if truthy (correctedImage s) then
    setErrorMsg None
      (setViewMode Before
        (setCorrectedImage None (setOriginalImage (correctedImage s) s)))
  else s.

(** [confirmed]: the answer to [window.confirm]. *)
Definition clearHistory (confirmed : bool) (s : AppState) : AppState :=
  if confirmed then setHistory (fun _ => []) s else s.

(** The click handler of a history entry. *)
Definition replay (session : EditSession.t) (s : AppState) : AppState :=
  setViewMode After
    (setOriginalImage (Some (EditSession.originalImage session))
      (setCorrectedImage (Some (EditSession.resultImage session)) s)).

(** ** Rendering: what is enabled and what is shown *)

(** [disabled={mode !== 'Before' && !correctedImage}]. *)
Definition viewButtonDisabled (mode : ViewMode) (s : AppState) : bool :=
  negb (bool_decide (mode = Before)) && negb (truthy (correctedImage s)).

(** [disabled={isProcessing || !originalImage}]. *)
Definition runButtonDisabled (s : AppState) : bool :=
  isProcessing s || negb (truthy (originalImage s)).

(** A click on a view-mode button: a disabled button fires no event. *)
Definition clickViewMode (mode : ViewMode) (s : AppState) : AppState :=
  if viewButtonDisabled mode s then s else setViewMode mode s.

(** The canvas: the comparison viewer in the stored mode when a result
    exists and the mode is not [Before], the source alone otherwise. *)
Inductive Display : Type :=
| ShowComparison (original : option string) (corrected : string) (mode : ViewMode)
| ShowSource (original : option string).

Definition display (s : AppState) : Display :=
  match correctedImage s with
  | Some c =>
      if truthy (Some c) && negb (bool_decide (viewMode s = Before))
      then ShowComparison (originalImage s) c (viewMode s)
      else ShowSource (originalImage s)
  | None => ShowSource (originalImage s)
  end.

(** The mode the canvas is in. *)
Definition displayedMode (s : AppState) : ViewMode :=
  match display s with
  | ShowComparison _ _ mode => mode
  | ShowSource _ => Before
  end.

(** ** Settings controls *)

(** [onChange] of the scope and angle selects, of the strength slider
    ([parseInt] of the slider's value) and of the fidelity checkbox. *)
Definition changeScope (value : string) : AppState -> AppState :=
  setSettings "scope" (VStr value).
Definition changeStrength (value : Z) : AppState -> AppState :=
  setSettings "strength" (VNum (inject_Z value)).
Definition changeAngleTag (value : string) : AppState -> AppState :=
  setSettings "angleTag" (VStr value).
Definition changeAbsoluteLineFidelity (checked : bool) : AppState -> AppState :=
  setSettings "absoluteLineFidelity" (VBool checked).

(** The ranges and enumerations of [CorrectionSettings], as predicates on
    the value held at run time. *)
Definition inRange (lo hi : Z) (v : Value) : bool :=
  match v with
  | VNum q => Qle_bool (inject_Z lo) q && Qle_bool q (inject_Z hi)
  | _ => false
  end.

Definition oneOf (members : list string) (v : Value) : bool :=
  match v with
  | VStr s => existsb (String.eqb s) members
  | _ => false
  end.

Definition validSettings (v : Value) : bool :=
  inRange 1 100 (field "strength" v)
  && inRange 0 100 (field "linePreservation" v)
  && oneOf CorrectionMode (field "mode" v)
  && oneOf AngleTag (field "angleTag" v)
  && oneOf AutoCorrectionScope (field "scope" v).

(** ** The component as a transition system *)

(** The component together with the call of [handleRunCorrection] that is
    suspended at its [await], if any. *)
Record System : Type := {
  app : AppState;
  inflight : option Closure
}.

(** What can happen to the editor.  The reference library, the pack
    check boxes and the retrieval effect only call [setPacks],
    [setSelectedPackIds] and [setRetrievedRefs]; they are over-approximated
    by events that store an arbitrary value. *)
Inductive Event : Type :=
| Upload (file : option LoadedImage)
| ClickRun
| ProviderSettles (o : ProviderOutcome) (nowId nowTs : Z)
| ClickPromote
| ClickViewMode (mode : ViewMode)
| ClickHistoryEntry (i : nat)
| ClickClearAll (confirmed : bool)
| SelectScope (value : string)
| SlideStrength (value : Z)
| SelectAngleTag (value : string)
| CheckFidelity (checked : bool)
| LibraryEdit (packs' : Value)
| PackSelection (selected' : Value)
| RetrievalEffect (refs' : list ReferenceImage.t).

Definition onApp (f : AppState -> AppState) (sys : System) : System :=
  {| app := f (app sys); inflight := inflight sys |}.

Definition step (ev : Event) (sys : System) : System :=
  match ev with
  | Upload file => onApp (handleFileUpload file) sys
  | ClickRun =>
      if runButtonDisabled (app sys) then sys
      else
        let '(s', c) := runBegin (app sys) in
        {| app := s';
           inflight := match c with Some _ => c | None => inflight sys end |}
  | ProviderSettles o nowId nowTs =>
      match inflight sys with
      | Some c => {| app := runSettle c o nowId nowTs (app sys); inflight := None |}
      | None => sys
      end
  | ClickPromote => onApp handlePromoteToSource sys
  | ClickViewMode mode => onApp (clickViewMode mode) sys
  | ClickHistoryEntry i =>
      match history (app sys) !! i with
      | Some session => onApp (replay session) sys
      | None => sys
      end
  | ClickClearAll confirmed => onApp (clearHistory confirmed) sys
  | SelectScope value => onApp (changeScope value) sys
  | SlideStrength value => onApp (changeStrength value) sys
  | SelectAngleTag value => onApp (changeAngleTag value) sys
  | CheckFidelity checked => onApp (changeAbsoluteLineFidelity checked) sys
  | LibraryEdit packs' => onApp (setPacks packs') sys
  | PackSelection selected' => onApp (setSelectedPackIds selected') sys
  | RetrievalEffect refs' => onApp (setRetrievedRefs refs') sys
  end.

Definition run (evs : list Event) (sys : System) : System :=
  foldl (fun acc ev => step ev acc) sys evs.

Definition initialSystem (ls : LocalStorage) (now1 now2 : Z) : option System :=
  (fun s => {| app := s; inflight := None |}) <$> initialState ls now1 now2.

Inductive reachable : System -> Prop :=
| reachable_init ls now1 now2 sys :
    initialSystem ls now1 now2 = Some sys -> reachable sys
| reachable_step ev sys :
    reachable sys -> reachable (step ev sys).

(** The values the controls can send: an option of the select, a position
    of the slider ([min=1], [max=100]). *)
Definition offered (ev : Event) : Prop :=
  match ev with
  | SelectScope value => value ∈ AutoCorrectionScope
  | SlideStrength value => 1 <= value <= 100
  | SelectAngleTag value => value ∈ AngleTag
  | _ => True
  end.

(** Appending sessions one after the other, in the order given. *)
Definition appendAll (sessions prev : list EditSession.t) : list EditSession.t :=
  foldl (fun acc session => append session acc) prev sessions.

(** ** Concrete scenarios *)

Definition emptyStorage : LocalStorage :=
  {| accessible := true; items := ∅ |}.

Definition deniedStorage : LocalStorage :=
  {| accessible := false; items := ∅ |}.

Definition storageWithSettings (t : StoredText) : LocalStorage :=
  {| accessible := true; items := {[ "art_settings_v6" := t ]} |}.

(** A stored settings record with an out-of-range strength and line
    preservation and an unknown mode. *)
Definition outOfRangeSettings : Value :=
  VObj [("strength", VNum 150);
        ("linePreservation", VNum (-5));
        ("mode", VStr "Bogus");
        ("angleTag", VStr "3/4 View");
        ("scope", VStr "Full Image");
        ("absoluteLineFidelity", VBool true)].

(** A stored settings record of an older shape: one field only. *)
Definition partialSettings : Value := VObj [("strength", VNum 70)].

Definition sketch : LoadedImage :=
  {| base64 := "data:image/png;base64,AAAA"; imgWidth := 640; imgHeight := 480 |}.

Definition sketch2 : LoadedImage :=
  {| base64 := "data:image/png;base64,BBBB"; imgWidth := 800; imgHeight := 600 |}.

Definition someMetrics : CorrectionMetrics.t :=
  CorrectionMetrics.mk (1 # 2) (3 # 10) (1 # 100) 0 true.

Definition providerOk (_ : ProviderCall) : ProviderOutcome :=
  Resolved "data:image/png;base64,RRRR" someMetrics.

Definition providerQuota (_ : ProviderCall) : ProviderOutcome :=
  RejectedCorrectionFailed "Quota exceeded.".

Definition providerBroken (_ : ProviderCall) : ProviderOutcome := RejectedOther.

(** The state of a fresh start with nothing stored. *)
Definition freshState : AppState :=
  {| originalImage := None;
     correctedImage := None;
     imageDimensions := {| width := 1024; height := 1024 |};
     isProcessing := false;
     errorMsg := None;
     viewMode := After;
     history := [];
     packs := seedPacks 0 0;
     retrievedRefs := [];
     selectedPackIds := VArr [VStr "1"; VStr "2"];
     settings := 0%nat;
     heap := [defaultSettings] |}.

(** A fresh start, a sketch loaded, one successful correction. *)
Definition correctedState : AppState :=
  (handleRunCorrection providerOk 1700000000000 1700000000001
     (handleFileUpload (Some sketch) freshState)).1.

(** ** The object store of a reachable system *)

(** The settings reference and the references held by the history and by
    the suspended run denote cells of the store; no history entry holds
    the reference of the current settings, and no two entries hold the
    same reference. *)
Definition Inv (sys : System) : Prop :=
  (settings (app sys) < length (heap (app sys)))%nat
  /\ Forall (fun e => (EditSession.settings e < length (heap (app sys)))%nat
                      /\ EditSession.settings e <> settings (app sys))
            (history (app sys))
  /\ NoDup (EditSession.settings <$> history (app sys))
  /\ (forall c, inflight sys = Some c ->
               (cSettings c < length (heap (app sys)))%nat).

(** A record that cannot be used: the storage cannot be read, the key is
    absent, or its text is empty or not JSON. *)
Definition unusable (ls : LocalStorage) (key : string) : Prop :=
  accessible ls = false
  \/ items ls !! key = None
  \/ items ls !! key = Some EmptyText
  \/ items ls !! key = Some Malformed.

(** The events that write the settings cell. *)
Definition editsSettings (ev : Event) : bool :=
  match ev with
  | SelectScope _ | SlideStrength _ | SelectAngleTag _ | CheckFidelity _ => true
  | _ => false
  end.

(** A system started with nothing stored, and the same after an upload,
    a click on the run button and a successful answer of the provider. *)
Definition freshSystem : System := {| app := freshState; inflight := None |}.

Definition correctedSystem : System :=
  run [Upload (Some sketch); ClickRun;
       ProviderSettles (Resolved "data:image/png;base64,RRRR" someMetrics)
                       1700000000000 1700000000001]
      freshSystem.

(** ** The rest of the editor: what the render reads *)

(** [history[0]?.metrics]. *)
Definition currentMetrics (s : AppState) : option CorrectionMetrics.t :=
  EditSession.metrics <$> head (history s).

(** The text under "Output Consistency":
    [currentMetrics ? `Pass: Corrected for ${settings.angleTag}`
                    : 'Ready for Cleanup'],
    with the interpolated value kept as a value.  [None]: reading
    [settings.angleTag] throws. *)
Inductive FooterStatus : Type :=
| ReadyForCleanup
| PassCorrectedFor (angleTag : Value).

Definition footerStatus (s : AppState) : option FooterStatus :=
  match currentMetrics s with
  | Some _ => PassCorrectedFor <$> getProp "angleTag" (currentSettings s)
  | None => Some ReadyForCleanup
  end.

(** ** The reference library and the pack check boxes *)

(** [v === id] and [v !== id] for a string [id]: only the same string is
    equal to it. *)
Definition isStr (id : string) (v : Value) : bool :=
  match v with
  | VStr s => String.eqb s id
  | _ => false
  end.

(** [p.id === id]; [None] when reading [p.id] throws. *)
Definition idIs (id : string) (p : Value) : option bool :=
  isStr id <$> getProp "id" p.

(** The receiver of [.map] and [.filter]: only an array has them. *)
Definition asArray (v : Value) : option (list Value) :=
  match v with
  | VArr xs => Some xs
  | _ => None
  end.

(** The elements a spread [[...v]] takes from [v]: those of an array, the
    characters of a string (the characters of a [string] are bytes here,
    which is exact for ASCII text); anything else is not iterable. *)
Definition characters (s : string) : list Value :=
  (fun a => VStr (String a EmptyString)) <$> String.list_ascii_of_string s.

Definition iterate (v : Value) : option (list Value) :=
  match v with
  | VArr xs => Some xs
  | VStr s => Some (characters s)
  | _ => None
  end.

(** [xs.filter(keep)] for a callback that may throw. *)
Fixpoint filterThrow (keep : Value -> option bool) (xs : list Value)
  : option (list Value) :=
  match xs with
  | [] => Some []
  | x :: rest =>
      match keep x with
      | Some b =>
          match filterThrow keep rest with
          | Some rest' => Some (if b then x :: rest' else rest')
          | None => None
          end
      | None => None
      end
  end.

(** The updater of [togglePackSelection] on an array [prev]:
    [prev.includes(id) ? prev.filter(pid => pid !== id) : [...prev, id]]. *)
Definition toggleIn (id : string) (prev : list Value) : list Value :=
  if existsb (isStr id) prev
  then filter (fun pid => negb (isStr id pid)) prev
  else prev ++ [VStr id].

(** [needle] occurs in [hay]: [hay.includes(needle)] on strings. *)
Fixpoint includesStr (needle hay : string) : bool :=
  String.prefix needle hay
  || match hay with
     | EmptyString => false
     | String _ rest => includesStr needle rest
     end.

(** [togglePackSelection(id)] on the selection cell, whatever it holds: an
    array is toggled; a string has [includes] but no [filter]; the other
    values have no [includes]. *)
Definition togglePackSelection (id : string) (s : AppState) : option AppState :=
  match selectedPackIds s with
  | VArr prev => Some (setSelectedPackIds (VArr (toggleIn id prev)) s)
  | VStr prev =>
      if includesStr id prev then None
      else Some (setSelectedPackIds (VArr (characters prev ++ [VStr id])) s)
  | _ => None
  end.

(** [{ id, packId: id, data, tags: [] }] of [onUploadToPack]; [rid] is the
    random text [Math.random().toString(36).substr(7)]. *)
Definition newImage (packId : string) (upload : string * string) : Value :=
  VObj [("id", VStr upload.1); ("packId", VStr packId);
        ("data", VStr upload.2); ("tags", VArr [])].

(** The five callbacks handed to [ReferenceLibrary], as functions of the
    [packs] value of the render; [None]: the callback throws. *)
Definition onAddPack (rid n d : string) (now : Z) (packs : Value)
  : option Value :=
  match iterate packs with
  | Some xs => Some (VArr (xs ++ [seedPack rid n d now]))
  | None => None
  end.

Definition renamed (n d : string) (p : Value) : Value :=
  VObj (setField "description" (VStr d) (setField "name" (VStr n) (ownEntries p))).

Definition onUpdatePack (id n d : string) (packs : Value) : option Value :=
  match asArray packs with
  | Some xs =>
      VArr <$> mapM (fun p =>
                       match idIs id p with
                       | Some true => Some (renamed n d p)
                       | Some false => Some p
                       | None => None
                       end) xs
  | None => None
  end.

Definition onDeletePack (id : string) (packs : Value) : option Value :=
  match asArray packs with
  | Some xs => VArr <$> filterThrow (fun p => negb <$> idIs id p) xs
  | None => None
  end.

(** [uploads]: for each uploaded image its random id and its data. *)
Definition onUploadToPack (id : string) (uploads : list (string * string))
    (packs : Value) : option Value :=
  match asArray packs with
  | Some xs =>
      VArr <$> mapM (fun p =>
                       match idIs id p with
                       | Some true =>
                           match getProp "images" p ≫= iterate with
                           | Some old =>
                               Some (VObj (setField "images"
                                             (VArr (old ++ (newImage id <$> uploads)))
                                             (ownEntries p)))
                           | None => None
                           end
                       | Some false => Some p
                       | None => None
                       end) xs
  | None => None
  end.

Definition onDeleteImage (pid imgid : string) (packs : Value) : option Value :=
  match asArray packs with
  | Some xs =>
      VArr <$> mapM (fun p =>
                       match idIs pid p with
                       | Some true =>
                           match getProp "images" p ≫= asArray with
                           | Some imgs =>
                               match filterThrow (fun i => negb <$> idIs imgid i) imgs with
                               | Some kept =>
                                   Some (VObj (setField "images" (VArr kept)
                                                        (ownEntries p)))
                               | None => None
                               end
                           | None => None
                           end
                       | Some false => Some p
                       | None => None
                       end) xs
  | None => None
  end.

(** A callback of the library applied to the state: it only calls
    [setPacks]. *)
Definition inLibrary (callback : Value -> option Value) (s : AppState)
  : option AppState :=
  (fun packs' => setPacks packs' s) <$> callback (packs s).

(** The catalog as the library expects it: an array of pack objects, each
    with a string id and an array of image objects whose [packId] is the
    id of the pack. *)
Definition imageOwnedBy (pid : string) (img : Value) : bool :=
  match img with
  | VObj kvs => isStr pid (lookupField "packId" kvs)
  | _ => false
  end.

Definition wellFormedPack (p : Value) : bool :=
  match p with
  | VObj kvs =>
      match lookupField "id" kvs, lookupField "images" kvs with
      | VStr pid, VArr imgs => forallb (imageOwnedBy pid) imgs
      | _, _ => false
      end
  | _ => false
  end.

Definition wellFormedCatalog (packs : Value) : bool :=
  match packs with
  | VArr xs => forallb wellFormedPack xs
  | _ => false
  end.

(** ** More on the reachable states *)

(** At most one run is suspended, and the processing flag says so; the
    history is within its bound; every session was made from a source
    image and refers to an object of the store. *)
Definition RunInv (sys : System) : Prop :=
  (length (history (app sys)) <= 20)%nat
  /\ (isProcessing (app sys) = true <-> is_Some (inflight sys))
  /\ (forall c, inflight sys = Some c -> cOriginalImage c <> "")
  /\ Forall (fun e => EditSession.originalImage e <> ""
                      /\ exists kvs,
                           deref (heap (app sys)) (EditSession.settings e)
                           = VObj kvs)
            (history (app sys)).

(** A catalog with one pack holding one image, for the examples. *)
Definition eyesCatalog : Value :=
  VArr [VObj [("id", VStr "1"); ("name", VStr "Eyes");
              ("description", VStr ""); 
              ("images", VArr [newImage "1" ("a1", "data:1")]);
              ("createdAt", VNum 0)];
        seedPack "2" "Jaws" "none" 0].

(** A storage that can be accessed and holds no usable record: the packs
    text is not JSON, the selection text is empty, the settings key is
    absent. *)
Definition corruptStorage : LocalStorage :=
  {| accessible := true;
     items := {[ "art_packs" := Malformed; "art_selected_packs" := EmptyText ]} |}.

(** A storage that holds a packs record only. *)
Definition storageWithPacks (t : StoredText) : LocalStorage :=
  {| accessible := true; items := {[ "art_packs" := t ]} |}.

Example freshState_is_initial : initialState emptyStorage 0 0 = Some freshState.
Proof. reflexivity. Qed.

Example correctedState_history :
  history correctedState =
    [EditSession.mk "1700000000000" "data:image/png;base64,AAAA"
       "data:image/png;base64,RRRR" 1%nat 1700000000001 someMetrics]
  /\ viewMode correctedState = After
  /\ correctedImage correctedState = Some "data:image/png;base64,RRRR"
  /\ heap correctedState = [defaultSettings; defaultSettings].
Proof. vm_compute. auto. Qed.

(** ** The view state *)

Lemma truthy_None_or_empty (o : option string) :
  truthy o = false <-> o = None \/ o = Some "".
Proof.
  destruct o as [s|]; simpl.
  - destruct (String.eqb_spec s ""); simpl; split; intros H;
      try discriminate; subst; auto.
    destruct H as [H|H]; [discriminate | congruence].
  - split; auto.
Qed.

Lemma displayedMode_no_result (s : AppState) :
  truthy (correctedImage s) = false -> displayedMode s = Before.
Proof.
  unfold displayedMode, display. intros H.
  destruct (correctedImage s) as [c|]; [|reflexivity].
  rewrite H. reflexivity.
Qed.

(** C2, as stated, fails: on a fresh start with an empty storage the
    view-mode cell does not hold [Before]. *)
Lemma viewMode_starts_as_After :
  exists s, initialState emptyStorage 0 0 = Some s /\ viewMode s <> Before.
Proof. exists freshState. split; [reflexivity | discriminate]. Qed.

(** C2, amended: whatever is stored, the view-mode cell starts as [After];
    no corrected image exists yet, so the canvas shows the source alone,
    which is the [Before] display. *)
Theorem initial_view (ls : LocalStorage) (now1 now2 : Z) (s : AppState) :
  initialState ls now1 now2 = Some s ->
  viewMode s = After
  /\ correctedImage s = None
  /\ display s = ShowSource None
  /\ displayedMode s = Before.
Proof.
  unfold initialState. intros H.
  destruct (initSelectedPackIds ls (initPacks ls now1 now2)); [|discriminate].
  injection H as <-. repeat split.
Qed.

Lemma initial_view_witness :
  exists s, initialState emptyStorage 0 0 = Some s
            /\ viewMode s = After /\ correctedImage s = None
            /\ display s = ShowSource None /\ displayedMode s = Before.
Proof.
  exists freshState. split; [reflexivity |].
  apply (initial_view emptyStorage 0 0 freshState). reflexivity.
Defined.

(** C3: what an upload does.  The result is discarded, the error is
    cleared and the canvas shows the new source alone, but the view-mode
    cell is not written: it keeps the mode it had. *)
Theorem upload_discards_result_keeps_viewMode (img : LoadedImage) (s : AppState) :
  let s' := handleFileUpload (Some img) s in
  correctedImage s' = None
  /\ originalImage s' = Some (base64 img)
  /\ errorMsg s' = None
  /\ viewMode s' = viewMode s
  /\ displayedMode s' = Before.
Proof. repeat split. Qed.

(** C3 at a concrete state: after one correction the mode is [After]; a
    second upload leaves it [After]. *)
Example upload_after_correction_stays_After :
  viewMode correctedState = After
  /\ viewMode (handleFileUpload (Some sketch2) correctedState) = After
  /\ correctedImage (handleFileUpload (Some sketch2) correctedState) = None
  /\ viewMode (handlePromoteToSource correctedState) = Before.
Proof. vm_compute. auto. Qed.

(** C5, as stated, fails: on a fresh start no result exists, the click on
    After is ignored, and the state it leaves is [After], not [Before]. *)
Lemma ignored_click_does_not_give_Before :
  initialState emptyStorage 0 0 = Some freshState
  /\ truthy (correctedImage freshState) = false
  /\ clickViewMode After freshState = freshState
  /\ viewMode (clickViewMode After freshState) <> Before.
Proof. repeat split. discriminate. Qed.

(** C5, amended: with no result image a click on After or Overlay changes
    nothing at all (the button is disabled, no error is recorded); the
    view-mode cell keeps its content, [Before] if it was [Before], and the
    canvas stays in the [Before] display. *)
Theorem view_transition_without_result (mode : ViewMode) (s : AppState) :
  truthy (correctedImage s) = false ->
  mode <> Before ->
  clickViewMode mode s = s
  /\ (viewMode s = Before -> viewMode (clickViewMode mode s) = Before)
  /\ displayedMode (clickViewMode mode s) = Before.
Proof.
  intros Hres Hmode.
  assert (Hid : clickViewMode mode s = s).
  { unfold clickViewMode, viewButtonDisabled.
    rewrite Hres, bool_decide_eq_false_2 by exact Hmode. reflexivity. }
  rewrite Hid. split; [reflexivity |].
  split; [auto | now apply displayedMode_no_result].
Qed.

Lemma view_transition_without_result_witness :
  let s := handlePromoteToSource correctedState in
  viewMode s = Before
  /\ clickViewMode Overlay s = s
  /\ (viewMode s = Before -> viewMode (clickViewMode Overlay s) = Before)
  /\ displayedMode (clickViewMode Overlay s) = Before.
Proof.
  split; [reflexivity |].
  apply (view_transition_without_result Overlay
           (handlePromoteToSource correctedState)).
  - reflexivity.
  - discriminate.
Defined.

(** ** Promotion of a result to the source *)

(** C10: without a result image (the cell holds [null] or the empty
    string) [handlePromoteToSource] returns the state it was given, every
    cell as before; with a result it makes the result the original, clears
    the result and the error, and sets the mode to [Before], and it writes
    no other cell. *)
Theorem promote_frame (s : AppState) :
  (truthy (correctedImage s) = false -> handlePromoteToSource s = s)
  /\ (forall result,
        correctedImage s = Some result -> truthy (Some result) = true ->
        let s' := handlePromoteToSource s in
        originalImage s' = Some result
        /\ correctedImage s' = None
        /\ viewMode s' = Before
        /\ errorMsg s' = None
        /\ imageDimensions s' = imageDimensions s
        /\ isProcessing s' = isProcessing s
        /\ history s' = history s
        /\ packs s' = packs s
        /\ retrievedRefs s' = retrievedRefs s
        /\ selectedPackIds s' = selectedPackIds s
        /\ settings s' = settings s
        /\ heap s' = heap s).
Proof.
  unfold handlePromoteToSource. split.
  - intros ->. reflexivity.
  - intros result Hc Ht. rewrite Hc, Ht. repeat split.
Qed.

Lemma promote_frame_witness :
  handlePromoteToSource freshState = freshState
  /\ originalImage (handlePromoteToSource correctedState)
     = Some "data:image/png;base64,RRRR"
  /\ correctedImage (handlePromoteToSource correctedState) = None
  /\ viewMode (handlePromoteToSource correctedState) = Before
  /\ errorMsg (handlePromoteToSource correctedState) = None.
Proof.
  split.
  - apply (proj1 (promote_frame freshState)). reflexivity.
  - pose proof (proj2 (promote_frame correctedState)
                  "data:image/png;base64,RRRR" eq_refl eq_refl) as H.
    simpl in H. tauto.
Defined.

(** ** One run of the correction *)

Lemma handleRunCorrection_with_image correctArt nowId nowTs s img :
  originalImage s = Some img -> img <> "" ->
  let call := {| pcSource := img;
                 pcSettings := currentSettings s;
                 pcReferences := retrievedRefs s;
                 pcDimensions := imageDimensions s |} in
  handleRunCorrection correctArt nowId nowTs s =
    (runSettle {| cOriginalImage := img; cSettings := settings s;
                  cRetrievedRefs := retrievedRefs s;
                  cImageDimensions := imageDimensions s |}
       (correctArt call) nowId nowTs
       (setIsProcessing true (setErrorMsg None s)),
     [call]).
Proof.
  intros Himg Hne. unfold handleRunCorrection, runBegin. rewrite Himg.
  simpl. destruct (String.eqb_spec img ""); [contradiction |]. reflexivity.
Qed.

(** C6: when the source cell holds no image ([null] or the empty string),
    [handleRunCorrection] only records the message "Upload an image
    first." and returns: the provider is not called, whatever it is, and
    no other cell changes (the run is not marked as processing).  The
    message is not the generic message of a provider failure. *)
Theorem run_without_image (correctArt : ProviderCall -> ProviderOutcome)
    (nowId nowTs : Z) (s : AppState) :
  truthy (originalImage s) = false ->
  handleRunCorrection correctArt nowId nowTs s
    = (setErrorMsg (Some "Upload an image first.") s, [])
  /\ noImageMessage <> interruptedMessage.
Proof.
  intros H. split; [| discriminate].
  unfold handleRunCorrection, runBegin.
  destruct (originalImage s) as [img|]; [| reflexivity].
  rewrite H. reflexivity.
Qed.

Lemma run_without_image_witness :
  handleRunCorrection providerOk 5 6 freshState
    = (setErrorMsg (Some "Upload an image first.") freshState, [])
  /\ noImageMessage <> interruptedMessage.
Proof. apply (run_without_image providerOk 5 6 freshState). reflexivity. Defined.

(** C7: when the call of the provider fails, the error cell receives the
    message of the failure if it is a [CorrectionFailedError] and
    "Refinement process interrupted." otherwise; processing is switched
    off, so the run button is enabled again; the history, the result image
    and every cell other than the error and the processing flag are as
    they were before the run.  The provider was called once. *)
Theorem run_provider_failure (correctArt : ProviderCall -> ProviderOutcome)
    (nowId nowTs : Z) (s : AppState) (img : string) :
  originalImage s = Some img -> img <> "" ->
  let call := {| pcSource := img;
                 pcSettings := currentSettings s;
                 pcReferences := retrievedRefs s;
                 pcDimensions := imageDimensions s |} in
  let failsWith (surfaced : string) :=
    handleRunCorrection correctArt nowId nowTs s
      = (setIsProcessing false (setErrorMsg (Some surfaced) s), [call])
    /\ runButtonDisabled (handleRunCorrection correctArt nowId nowTs s).1 = false
    /\ history (handleRunCorrection correctArt nowId nowTs s).1 = history s
    /\ correctedImage (handleRunCorrection correctArt nowId nowTs s).1
       = correctedImage s in
  (forall message,
      correctArt call = RejectedCorrectionFailed message -> failsWith message)
  /\ (correctArt call = RejectedOther ->
      failsWith "Refinement process interrupted.").
Proof.
  intros Himg Hne call failsWith.
  pose proof (handleRunCorrection_with_image correctArt nowId nowTs s img
                Himg Hne) as Hrun.
  simpl in Hrun. fold call in Hrun.
  assert (Hen : forall m,
             runButtonDisabled (setIsProcessing false (setErrorMsg (Some m) s))
             = false).
  { intros m. unfold runButtonDisabled. simpl. rewrite Himg. simpl.
    destruct (String.eqb_spec img ""); [contradiction | reflexivity]. }
  split.
  - intros message Hfail. unfold failsWith. rewrite Hrun, Hfail. simpl.
    repeat split. apply Hen.
  - intros Hfail. unfold failsWith. rewrite Hrun, Hfail. simpl.
    repeat split. apply (Hen interruptedMessage).
Qed.

Lemma run_provider_failure_witness :
  let s := handleFileUpload (Some sketch) freshState in
  handleRunCorrection providerQuota 5 6 s
    = (setIsProcessing false (setErrorMsg (Some "Quota exceeded.") s),
       [{| pcSource := "data:image/png;base64,AAAA";
           pcSettings := defaultSettings;
           pcReferences := [];
           pcDimensions := {| width := 640; height := 480 |} |}])
  /\ handleRunCorrection providerBroken 5 6 s
    = (setIsProcessing false
         (setErrorMsg (Some "Refinement process interrupted.") s),
       [{| pcSource := "data:image/png;base64,AAAA";
           pcSettings := defaultSettings;
           pcReferences := [];
           pcDimensions := {| width := 640; height := 480 |} |}]).
Proof.
  assert (Hne : "data:image/png;base64,AAAA" <> "") by discriminate.
  split.
  - exact (proj1 (proj1 (run_provider_failure providerQuota 5 6
                           (handleFileUpload (Some sketch) freshState)
                           "data:image/png;base64,AAAA" eq_refl Hne)
                    "Quota exceeded." eq_refl)).
  - exact (proj1 (proj2 (run_provider_failure providerBroken 5 6
                           (handleFileUpload (Some sketch) freshState)
                           "data:image/png;base64,AAAA" eq_refl Hne)
                    eq_refl)).
Defined.

(** ** The history *)

Lemma take_app_take {A : Type} (n : nat) (l k : list A) :
  take n (l ++ take n k) = take n (l ++ k).
Proof.
  rewrite !take_app, take_take. f_equal. f_equal. lia.
Qed.

Lemma appendAll_closed_form (sessions prev : list EditSession.t) :
  appendAll sessions (take 20 prev) = take 20 (reverse sessions ++ prev).
Proof.
  revert prev. induction sessions as [|x sessions IH]; intros prev.
  - reflexivity.
  - change (appendAll (x :: sessions) (take 20 prev))
      with (appendAll sessions (take 20 ([x] ++ take 20 prev))).
    rewrite take_app_take. change ([x] ++ prev) with (x :: prev).
    rewrite IH, reverse_cons, <- app_assoc.
    reflexivity.
Qed.

(** C4: starting from the empty history, appending sessions one after the
    other leaves the sessions in reverse order of arrival (newest first),
    cut to the first 20; the same holds on top of any history of at most
    20 entries.  One append puts the new session first and keeps the 19
    newest of the entries before it, so with 20 entries the oldest is
    dropped.  After 25 appends the history is exactly the last 20 sessions
    appended, newest first.  A successful run appends in this way. *)
Theorem history_newest_first_capped :
  (forall sessions, appendAll sessions [] = take 20 (reverse sessions))
  /\ (forall sessions prev,
        appendAll sessions (take 20 prev) = take 20 (reverse sessions ++ prev))
  /\ (forall sessions,
        length (appendAll sessions []) = (length sessions `min` 20)%nat)
  /\ (forall session prev, append session prev = session :: take 19 prev)
  /\ (forall arrival : nat -> EditSession.t,
        appendAll (arrival <$> seq 0 25) [] = arrival <$> reverse (seq 5 20))
  /\ (forall c resultImage metrics nowId nowTs s,
        history (runSettle c (Resolved resultImage metrics) nowId nowTs s)
        = append (EditSession.mk (pretty nowId) (cOriginalImage c) resultImage
                    (length (heap s)) nowTs metrics)
                 (history s)).
Proof.
  assert (H0 : forall sessions,
             appendAll sessions [] = take 20 (reverse sessions)).
  { intros sessions.
    pose proof (appendAll_closed_form sessions []) as H.
    rewrite app_nil_r in H. exact H. }
  split; [exact H0 |].
  split; [exact appendAll_closed_form |].
  split.
  { intros sessions. rewrite H0, length_take, length_reverse. lia. }
  split; [reflexivity |].
  split; [| reflexivity].
  intros arrival. rewrite H0. reflexivity.
Qed.

(** ** The object store only grows *)

Lemma deref_app_lt (h new : list Value) (l : loc) :
  (l < length h)%nat -> deref (h ++ new) l = deref h l.
Proof. intros Hl. unfold deref. now rewrite lookup_app_l. Qed.

Lemma deref_app_new (h : list Value) (v : Value) :
  deref (h ++ [v]) (length h) = v.
Proof. unfold deref. now rewrite list_lookup_middle. Qed.

Lemma step_heap_grows (ev : Event) (sys : System) :
  exists new, heap (app (step ev sys)) = heap (app sys) ++ new.
Proof.
  assert (Hsame : forall sys', heap (app sys') = heap (app sys) ->
                    exists new, heap (app sys') = heap (app sys) ++ new).
  { intros sys' ->. exists []. now rewrite app_nil_r. }
  destruct ev; simpl; try (apply Hsame; reflexivity);
    try (eexists; reflexivity).
  - destruct file; apply Hsame; reflexivity.
  - destruct (runButtonDisabled (app sys)); [apply Hsame; reflexivity |].
    unfold runBegin. destruct (originalImage (app sys)) as [img|];
      [destruct (truthy (Some img)) |]; apply Hsame; reflexivity.
  - destruct (inflight sys) as [c|]; [| apply Hsame; reflexivity].
    destruct o; simpl; try (apply Hsame; reflexivity).
    eexists; reflexivity.
  - unfold handlePromoteToSource.
    destruct (truthy (correctedImage (app sys))); apply Hsame; reflexivity.
  - unfold clickViewMode.
    destruct (viewButtonDisabled mode (app sys)); apply Hsame; reflexivity.
  - destruct (history (app sys) !! i); apply Hsame; reflexivity.
  - destruct confirmed; apply Hsame; reflexivity.
Qed.

Lemma run_heap_grows (evs : list Event) (sys : System) :
  exists new, heap (app (run evs sys)) = heap (app sys) ++ new.
Proof.
  revert sys. induction evs as [|ev evs IH]; intros sys.
  - exists []. simpl. now rewrite app_nil_r.
  - destruct (step_heap_grows ev sys) as [new1 H1].
    destruct (IH (step ev sys)) as [new2 H2].
    exists (new1 ++ new2).
    change (run (ev :: evs) sys) with (run evs (step ev sys)).
    rewrite H2, H1. now rewrite <- app_assoc.
Qed.

Lemma Inv_initial ls now1 now2 sys :
  initialSystem ls now1 now2 = Some sys -> Inv sys.
Proof.
  unfold initialSystem, initialState. intros H.
  destruct (initSelectedPackIds ls (initPacks ls now1 now2)); [| discriminate].
  injection H as <-. repeat split; simpl; try lia.
  - constructor.
  - constructor.
  - intros c Hc. discriminate.
Qed.

Lemma Inv_unchanged (sys sys' : System) :
  heap (app sys') = heap (app sys) ->
  settings (app sys') = settings (app sys) ->
  history (app sys') = history (app sys) ->
  (forall c, inflight sys' = Some c ->
             inflight sys = Some c \/ cSettings c = settings (app sys)) ->
  Inv sys -> Inv sys'.
Proof.
  intros Hh Hs Hy Hi (I1 & I2 & I3 & I4). unfold Inv.
  rewrite Hh, Hs, Hy. repeat split; auto.
  intros c Hc. destruct (Hi c Hc) as [Hc'| ->]; auto.
Qed.

Lemma Inv_setSettings (k : string) (v : Value) (sys : System) :
  Inv sys -> Inv (onApp (setSettings k v) sys).
Proof.
  intros (I1 & I2 & I3 & I4). unfold Inv. simpl.
  rewrite length_app. simpl. repeat split.
  - lia.
  - eapply Forall_impl; [exact I2 |]. simpl. intros e [He _]. lia.
  - exact I3.
  - intros c Hc. specialize (I4 c Hc). lia.
Qed.

Lemma Inv_settle_resolved c resultImage metrics nowId nowTs sys :
  Inv sys ->
  Inv {| app := runSettle c (Resolved resultImage metrics) nowId nowTs (app sys);
         inflight := None |}.
Proof.
  intros (I1 & I2 & I3 & I4). unfold Inv. simpl.
  rewrite length_app. simpl.
  set (e := EditSession.mk (pretty nowId) (cOriginalImage c) resultImage
              (length (heap (app sys))) nowTs metrics).
  repeat split.
  - lia.
  - unfold append. apply Forall_take. constructor.
    + simpl. lia.
    + eapply Forall_impl; [exact I2 |]. simpl. intros e' [He Hne]. lia.
  - unfold append. rewrite fmap_take.
    apply (sublist_NoDup _ (length (heap (app sys))
                             :: (EditSession.settings <$> history (app sys))));
      [| apply sublist_skip, sublist_take].
    apply NoDup_cons. split; [| exact I3].
    intros Hin. apply list_elem_of_fmap in Hin as (e' & Heq & Hin).
    rewrite Forall_forall in I2. destruct (I2 e' Hin) as [Hlt _]. lia.
  - intros c' Hc'. discriminate.
Qed.

Lemma Inv_step (ev : Event) (sys : System) : Inv sys -> Inv (step ev sys).
Proof.
  intros HI.
  destruct ev; simpl;
    try (apply Inv_setSettings; exact HI);
    try (apply (Inv_unchanged sys); auto; fail).
  - destruct file; apply (Inv_unchanged sys); auto.
  - destruct (runButtonDisabled (app sys)); [exact HI |].
    unfold runBegin. destruct (originalImage (app sys)) as [img|];
      [destruct (truthy (Some img)) |];
      apply (Inv_unchanged sys); simpl; auto.
    intros c [= <-]. simpl. auto.
  - destruct (inflight sys) as [c|]; [| exact HI].
    destruct o; [apply Inv_settle_resolved; exact HI | |];
      apply (Inv_unchanged sys); simpl; auto; discriminate.
  - unfold onApp, handlePromoteToSource.
    destruct (truthy (correctedImage (app sys)));
      apply (Inv_unchanged sys); simpl; auto.
  - unfold onApp, clickViewMode.
    destruct (viewButtonDisabled mode (app sys));
      apply (Inv_unchanged sys); simpl; auto.
  - destruct (history (app sys) !! i); apply (Inv_unchanged sys); simpl; auto.
  - destruct confirmed; [| apply (Inv_unchanged sys); simpl; auto].
    destruct HI as (I1 & I2 & I3 & I4). unfold Inv. simpl.
    repeat split; auto; constructor.
Qed.

Lemma reachable_Inv (sys : System) : reachable sys -> Inv sys.
Proof.
  induction 1 as [ls now1 now2 sys H | ev sys _ IH].
  - exact (Inv_initial ls now1 now2 sys H).
  - now apply Inv_step.
Qed.

Lemma reachable_run (evs : list Event) (sys : System) :
  reachable sys -> reachable (run evs sys).
Proof.
  revert sys. induction evs as [|ev evs IH]; intros sys H; [exact H |].
  apply (IH (step ev sys)). now constructor.
Qed.

(** ** Sessions hold their own copy of the settings *)

Lemma step_history (ev : Event) (sys : System) (e : EditSession.t) :
  e ∈ history (app (step ev sys)) ->
  e ∈ history (app sys)
  \/ EditSession.settings e = length (heap (app sys)).
Proof.
  destruct ev; simpl; auto.
  - destruct file; auto.
  - destruct (runButtonDisabled (app sys)); auto.
    unfold runBegin. destruct (originalImage (app sys)) as [img|];
      [destruct (truthy (Some img)) |]; auto.
  - destruct (inflight sys) as [c|]; auto.
    destruct o; simpl; auto.
    unfold append. intros Hin. apply subseteq_take in Hin.
    apply elem_of_cons in Hin as [-> | Hin]; auto.
  - unfold handlePromoteToSource.
    destruct (truthy (correctedImage (app sys))); auto.
  - unfold clickViewMode.
    destruct (viewButtonDisabled mode (app sys)); auto.
  - destruct (history (app sys) !! i); auto.
  - destruct confirmed; simpl; auto. intros Hin. inversion Hin.
Qed.

(** C8: in every reachable state of the component,
    - a successful answer of the provider puts first in the history a
      session whose settings reference is a new cell of the store, holding
      a copy of the own properties of the settings object the run was
      started with; the reference is neither the one captured by the run
      nor the current settings reference;
    - no entry of the history holds the current settings reference, and no
      two entries hold the same reference, so a write through the current
      settings reference would not reach an entry;
    - whatever happens next (settings edits included), the object an entry
      refers to stays as it is;
    - after any event, every entry of the history is an entry of the
      history before it, as it was, or the session just created. *)
Theorem session_settings_are_snapshots (sys : System) :
  reachable sys ->
  (forall c resultImage metrics nowId nowTs,
      inflight sys = Some c ->
      let sys' :=
        step (ProviderSettles (Resolved resultImage metrics) nowId nowTs) sys in
      exists e,
        history (app sys') = append e (history (app sys))
        /\ deref (heap (app sys')) (EditSession.settings e)
           = VObj (ownEntries (deref (heap (app sys)) (cSettings c)))
        /\ EditSession.settings e <> cSettings c
        /\ EditSession.settings e <> settings (app sys')
        /\ heap (app sys) !! EditSession.settings e = None)
  /\ NoDup (EditSession.settings <$> history (app sys))
  /\ (forall e,
        e ∈ history (app sys) ->
        EditSession.settings e <> settings (app sys)
        /\ (forall v,
              deref (<[settings (app sys) := v]> (heap (app sys)))
                    (EditSession.settings e)
              = deref (heap (app sys)) (EditSession.settings e))
        /\ (forall evs,
              deref (heap (app (run evs sys))) (EditSession.settings e)
              = deref (heap (app sys)) (EditSession.settings e)))
  /\ (forall ev e,
        e ∈ history (app (step ev sys)) ->
        e ∈ history (app sys)
        \/ heap (app sys) !! EditSession.settings e = None).
Proof.
  intros Hreach. pose proof (reachable_Inv sys Hreach) as (I1 & I2 & I3 & I4).
  split; [| split; [exact I3 | split]].
  - intros c resultImage metrics nowId nowTs Hc. simpl. rewrite Hc. simpl.
    eexists. split; [reflexivity |]. simpl.
    specialize (I4 c Hc).
    split; [apply deref_app_new |].
    split; [lia |]. split; [lia |].
    apply lookup_ge_None. lia.
  - intros e Hin. rewrite Forall_forall in I2.
    destruct (I2 e Hin) as [Hlt Hne].
    split; [exact Hne |]. split.
    + intros v. unfold deref. rewrite list_lookup_insert_ne; auto.
    + intros evs. destruct (run_heap_grows evs sys) as [new ->].
      now apply deref_app_lt.
  - intros ev e Hin. destruct (step_history ev sys e Hin) as [H | H]; auto.
    right. apply lookup_ge_None. lia.
Qed.

Lemma correctedSystem_reachable : reachable correctedSystem.
Proof.
  apply reachable_run. apply (reachable_init emptyStorage 0 0). reflexivity.
Qed.

Lemma session_settings_are_snapshots_witness :
  let e := EditSession.mk "1700000000000" "data:image/png;base64,AAAA"
             "data:image/png;base64,RRRR" 1%nat 1700000000001 someMetrics in
  history (app correctedSystem) = [e]
  /\ EditSession.settings e <> settings (app correctedSystem)
  /\ deref (heap (app (run [SlideStrength 10; SelectScope "Face Priority"]
                          correctedSystem)))
           (EditSession.settings e)
     = deref (heap (app correctedSystem)) (EditSession.settings e).
Proof.
  intros e.
  assert (Hh : history (app correctedSystem) = [e]) by reflexivity.
  split; [exact Hh |].
  pose proof (proj1 (proj2 (proj2
    (session_settings_are_snapshots correctedSystem
       correctedSystem_reachable)))) as H.
  assert (Hin : e ∈ history (app correctedSystem)).
  { rewrite Hh. apply list_elem_of_here. }
  destruct (H e Hin) as (Hne & _ & Hrun).
  split; [exact Hne | apply Hrun].
Defined.

(** The recorded settings after an edit, on the concrete run: the current
    settings have the new strength, the entry still has the old one. *)
Example edit_after_correction :
  let sys := run [SlideStrength 10] correctedSystem in
  field "strength" (currentSettings (app sys)) = VNum 10
  /\ (EditSession.settings <$> history (app sys)) = [1%nat]
  /\ field "strength" (deref (heap (app sys)) 1%nat) = VNum 50.
Proof. vm_compute. auto. Qed.

(** ** Loading the persisted records *)

Lemma loadSaved_unusable (ls : LocalStorage) (key : string) :
  unusable ls key <-> loadSaved ls key = None.
Proof.
  unfold unusable, loadSaved, getItem.
  destruct (accessible ls); [| tauto].
  destruct (items ls !! key) as [[| |v]|]; simpl; split; intros H;
    try reflexivity; try discriminate; auto.
  destruct H as [H | [H | [H | H]]]; discriminate.
Qed.

Lemma loadSaved_parses (ls : LocalStorage) (key : string) (v : Value) :
  accessible ls = true -> items ls !! key = Some (Parses v) ->
  loadSaved ls key = Some v.
Proof. unfold loadSaved, getItem. intros -> ->. reflexivity. Qed.

Lemma mapM_id_objects (ps : list (list (string * Value))) :
  mapM (getProp "id") (VObj <$> ps) = Some (lookupField "id" <$> ps).
Proof.
  induction ps as [|p ps IH]; [reflexivity |].
  cbn. cbn in IH. rewrite IH. reflexivity.
Qed.

(** C9, as stated, fails: a stored settings record that lacks fields is
    taken as it is; the missing line preservation is [undefined], not the
    default 85, and likewise for the other fields. *)
Lemma missing_fields_do_not_fall_back :
  exists s,
    initialState (storageWithSettings (Parses partialSettings)) 0 0 = Some s
    /\ currentSettings s = VObj [("strength", VNum 70)]
    /\ field "linePreservation" (currentSettings s) = VUndefined
    /\ field "linePreservation" defaultSettings = VNum 85
    /\ field "mode" (currentSettings s) = VUndefined.
Proof. eexists. split; [reflexivity |]. repeat split. Qed.

(** C9, amended: what the three [useState] initialisers return for a
    record that cannot be used (reading the storage throws, the key is
    absent, or its text is empty or not JSON); none of them throws inside
    its [try].  The packs initialiser returns the two seed packs.  The
    settings initialiser returns the default settings (strength 50, line
    preservation 85, mode Proportion, angle 3/4 View, scope Full Image,
    strict line fidelity on).  The selection initialiser returns the ids of
    all the packs of the packs value, provided that value is an array of
    pack objects; it is when the packs record is unusable too, and then the
    selection is the two seed ids and the three initialisers all complete.
    A settings record that parses is taken as parsed, with no default
    filled in for a field it lacks.  Nothing is stated about a packs value
    of another shape when the selection record is unusable, nor about the
    persistence effect that runs after the first render. *)
Theorem load_falls_back_per_record (ls : LocalStorage) (now1 now2 : Z) :
  (unusable ls "art_packs" ->
     initPacks ls now1 now2 = seedPacks now1 now2
     /\ is_Some (initialState ls now1 now2))
  /\ (unusable ls "art_settings_v6" ->
        initSettings ls
        = VObj [("strength", VNum 50);
                ("linePreservation", VNum 85);
                ("mode", VStr "Proportion (Mode A)");
                ("angleTag", VStr "3/4 View");
                ("scope", VStr "Full Image");
                ("absoluteLineFidelity", VBool true)])
  /\ (unusable ls "art_selected_packs" ->
        (forall ps,
            initPacks ls now1 now2 = VArr (VObj <$> ps) ->
            initSelectedPackIds ls (initPacks ls now1 now2)
            = Some (VArr (lookupField "id" <$> ps)))
        /\ (unusable ls "art_packs" ->
            initSelectedPackIds ls (initPacks ls now1 now2)
            = Some (VArr [VStr "1"; VStr "2"])))
  /\ (unusable ls "art_packs" -> unusable ls "art_selected_packs" ->
      unusable ls "art_settings_v6" ->
        initialState ls now1 now2
        = Some {| originalImage := None;
                  correctedImage := None;
                  imageDimensions := {| width := 1024; height := 1024 |};
                  isProcessing := false;
                  errorMsg := None;
                  viewMode := After;
                  history := [];
                  packs := seedPacks now1 now2;
                  retrievedRefs := [];
                  selectedPackIds := VArr [VStr "1"; VStr "2"];
                  settings := 0%nat;
                  heap := [defaultSettings] |})
  /\ (forall v,
        accessible ls = true ->
        items ls !! "art_settings_v6" = Some (Parses v) ->
        initSettings ls = v).
Proof.
  assert (Hpacks : unusable ls "art_packs" ->
                   initPacks ls now1 now2 = seedPacks now1 now2).
  { intros H. apply loadSaved_unusable in H. unfold initPacks. now rewrite H. }
  assert (Hsel : unusable ls "art_selected_packs" -> unusable ls "art_packs" ->
                 initSelectedPackIds ls (initPacks ls now1 now2)
                 = Some (VArr [VStr "1"; VStr "2"])).
  { intros H1 H2. rewrite (Hpacks H2). apply loadSaved_unusable in H1.
    unfold initSelectedPackIds. now rewrite H1. }
  assert (Hset : unusable ls "art_settings_v6" -> initSettings ls = defaultSettings).
  { intros H. apply loadSaved_unusable in H. unfold initSettings. now rewrite H. }
  split; [| split; [exact Hset | split; [| split]]].
  - intros H. split; [exact (Hpacks H) |].
    unfold initialState. rewrite (Hpacks H). unfold initSelectedPackIds.
    destruct (loadSaved ls "art_selected_packs"); simpl; eauto.
  - intros H. split; [| exact (Hsel H)].
    intros ps ->. apply loadSaved_unusable in H.
    unfold initSelectedPackIds. rewrite H. simpl.
    now rewrite mapM_id_objects.
  - intros H1 H2 H3. unfold initialState.
    rewrite (Hsel H2 H1), (Hpacks H1), (Hset H3). reflexivity.
  - intros v Ha Hv. unfold initSettings.
    now rewrite (loadSaved_parses ls _ v Ha Hv).
Qed.

Lemma load_falls_back_per_record_witness :
  initialState corruptStorage 3 4
  = Some {| originalImage := None;
            correctedImage := None;
            imageDimensions := {| width := 1024; height := 1024 |};
            isProcessing := false;
            errorMsg := None;
            viewMode := After;
            history := [];
            packs := seedPacks 3 4;
            retrievedRefs := [];
            selectedPackIds := VArr [VStr "1"; VStr "2"];
            settings := 0%nat;
            heap := [defaultSettings] |}
  /\ initSelectedPackIds (storageWithPacks (Parses eyesCatalog))
       (initPacks (storageWithPacks (Parses eyesCatalog)) 0 0)
     = Some (VArr [VStr "1"; VStr "2"])
  /\ initSettings (storageWithSettings Malformed) = defaultSettings
  /\ initSettings (storageWithSettings (Parses partialSettings)) = partialSettings.
Proof.
  split; [| split; [| split]].
  - apply (proj1 (proj2 (proj2 (proj2
             (load_falls_back_per_record corruptStorage 3 4))))).
    + right. right. right. reflexivity.
    + right. right. left. reflexivity.
    + right. left. reflexivity.
  - exact (proj1 (proj1 (proj2 (proj2
             (load_falls_back_per_record
                (storageWithPacks (Parses eyesCatalog)) 0 0)))
             (or_intror (or_introl eq_refl)))
             [ [("id", VStr "1"); ("name", VStr "Eyes"); ("description", VStr "");
                ("images", VArr [newImage "1" ("a1", "data:1")]);
                ("createdAt", VNum 0)];
               [("id", VStr "2"); ("name", VStr "Jaws");
                ("description", VStr "none"); ("images", VArr []);
                ("createdAt", VNum (inject_Z 0))] ]
             eq_refl).
  - apply (proj1 (proj2
             (load_falls_back_per_record (storageWithSettings Malformed) 0 0))).
    right. right. right. reflexivity.
  - apply (proj2 (proj2 (proj2 (proj2
             (load_falls_back_per_record
                (storageWithSettings (Parses partialSettings)) 0 0)))));
      reflexivity.
Defined.

(** A packs record that parses to something other than an array, with no
    stored selection: the default of the selection initialiser, computed
    outside its [try], throws. *)
Example wrong_shape_packs_throw :
  initialState {| accessible := true;
                  items := {[ "art_packs" := Parses (VObj []) ]} |} 0 0
  = None.
Proof. reflexivity. Qed.

(** ** Settings are used as they are held *)

(** C1, as stated, fails: a stored settings record with strength 150,
    line preservation -5 and the mode "Bogus" is loaded without an error
    and without a change, and the next run hands exactly this record to
    the provider. *)
Lemma stored_settings_not_normalized :
  exists s s' calls,
    initialState (storageWithSettings (Parses outOfRangeSettings)) 0 0 = Some s
    /\ errorMsg s = None
    /\ handleRunCorrection providerOk 1 2 (handleFileUpload (Some sketch) s)
       = (s', calls)
    /\ errorMsg s' = None
    /\ (pcSettings <$> calls) = [outOfRangeSettings]
    /\ field "strength" outOfRangeSettings = VNum 150
    /\ inRange 1 100 (VNum 150) = false
    /\ field "linePreservation" outOfRangeSettings = VNum (-5)
    /\ inRange 0 100 (VNum (-5)) = false
    /\ field "mode" outOfRangeSettings = VStr "Bogus"
    /\ oneOf CorrectionMode (VStr "Bogus") = false.
Proof.
  eexists. eexists. eexists.
  split; [reflexivity |]. split; [reflexivity |].
  split; [vm_compute; reflexivity |]. repeat split.
Qed.

Lemma lookupField_setField (k k' : string) (v : Value)
    (kvs : list (string * Value)) :
  lookupField k' (setField k v kvs)
  = if String.eqb k' k then v else lookupField k' kvs.
Proof.
  induction kvs as [|[k0 v0] kvs IH]; simpl.
  - destruct (String.eqb k' k); reflexivity.
  - destruct (String.eqb_spec k k0) as [-> | Hne]; simpl.
    + destruct (String.eqb k' k0); reflexivity.
    + rewrite IH. destruct (String.eqb_spec k' k0) as [-> | Hne'];
        [| reflexivity].
      destruct (String.eqb_spec k0 k); [congruence | reflexivity].
Qed.

Lemma currentSettings_setSettings (k : string) (v : Value) (s : AppState) :
  currentSettings (setSettings k v s)
  = VObj (setField k v (ownEntries (currentSettings s))).
Proof. unfold currentSettings, setSettings. simpl. apply deref_app_new. Qed.

Lemma step_keeps_settings_ref (ev : Event) (sys : System) :
  editsSettings ev = false ->
  settings (app (step ev sys)) = settings (app sys).
Proof.
  destruct ev; simpl; try discriminate; intros _; auto.
  - destruct file; reflexivity.
  - destruct (runButtonDisabled (app sys)); auto.
    unfold runBegin. destruct (originalImage (app sys)) as [img|];
      [destruct (truthy (Some img)) |]; reflexivity.
  - destruct (inflight sys) as [c|]; auto. destruct o; reflexivity.
  - unfold handlePromoteToSource.
    destruct (truthy (correctedImage (app sys))); reflexivity.
  - unfold clickViewMode.
    destruct (viewButtonDisabled mode (app sys)); reflexivity.
  - destruct (history (app sys) !! i); reflexivity.
  - destruct confirmed; reflexivity.
Qed.

Lemma step_keeps_currentSettings (ev : Event) (sys : System) :
  Inv sys -> editsSettings ev = false ->
  currentSettings (app (step ev sys)) = currentSettings (app sys).
Proof.
  intros (I1 & _) Hev. unfold currentSettings.
  rewrite (step_keeps_settings_ref ev sys Hev).
  destruct (step_heap_grows ev sys) as [new ->]. now apply deref_app_lt.
Qed.

Lemma inRange_inject (lo hi n : Z) :
  lo <= n <= hi -> inRange lo hi (VNum (inject_Z n)) = true.
Proof.
  intros [Hlo Hhi]. unfold inRange, Qle_bool. simpl.
  apply andb_true_iff. split; apply Z.leb_le; lia.
Qed.

Lemma oneOf_member (members : list string) (value : string) :
  value ∈ members -> oneOf members (VStr value) = true.
Proof.
  intros Hin. unfold oneOf. apply existsb_exists. exists value.
  split; [now apply list_elem_of_In | apply String.eqb_refl].
Qed.

#[local] Arguments inRange : simpl never.
#[local] Arguments oneOf : simpl never.

Lemma step_keeps_valid (ev : Event) (sys : System) :
  Inv sys -> offered ev ->
  validSettings (currentSettings (app sys)) = true ->
  validSettings (currentSettings (app (step ev sys))) = true.
Proof.
  intros HI Hoff Hvalid.
  destruct (editsSettings ev) eqn:Hev;
    [| now rewrite (step_keeps_currentSettings ev sys HI Hev)].
  unfold validSettings, field in Hvalid.
  apply andb_true_iff in Hvalid as [Hvalid Hscope].
  apply andb_true_iff in Hvalid as [Hvalid Hangle].
  apply andb_true_iff in Hvalid as [Hvalid Hmode].
  apply andb_true_iff in Hvalid as [Hstrength Hline].
  destruct ev; try discriminate; simpl in Hoff |- *;
    unfold changeScope, changeStrength, changeAngleTag,
           changeAbsoluteLineFidelity;
    rewrite currentSettings_setSettings;
    unfold validSettings, field; simpl ownEntries;
    rewrite !lookupField_setField; simpl;
    rewrite ?Hstrength, ?Hline, ?Hmode, ?Hangle, ?Hscope; simpl.
  - apply (oneOf_member AutoCorrectionScope value Hoff).
  - rewrite (inRange_inject 1 100 value Hoff). reflexivity.
  - rewrite (oneOf_member AngleTag value Hoff). reflexivity.
  - reflexivity.
Qed.

Lemma run_keeps_valid (evs : list Event) (sys : System) :
  Inv sys -> Forall offered evs ->
  validSettings (currentSettings (app sys)) = true ->
  validSettings (currentSettings (app (run evs sys))) = true.
Proof.
  revert sys. induction evs as [|ev evs IH]; intros sys HI Hoff Hvalid;
    [exact Hvalid |].
  apply Forall_cons in Hoff as [Hev Hevs].
  apply (IH (step ev sys)); auto using Inv_step, step_keeps_valid.
Qed.

Lemma handleRunCorrection_passes_settings correctArt nowId nowTs s call :
  call ∈ (handleRunCorrection correctArt nowId nowTs s).2 ->
  pcSettings call = currentSettings s.
Proof.
  unfold handleRunCorrection, runBegin.
  destruct (originalImage s) as [img|];
    [destruct (truthy (Some img)) |]; simpl; intros Hin;
    try (inversion Hin; fail).
  apply list_elem_of_singleton in Hin as ->. reflexivity.
Qed.

(** C1, amended: the component has no normalisation step.  The settings
    initialiser returns a stored record that parses exactly as parsed, and
    the defaults otherwise; a run hands the settings object it holds to the
    provider as it is.  The defaults are within the ranges and among the
    known values; and when the initial settings are, they remain so after
    any sequence of events in which the controls send what they offer (a
    slider position from 1 to 100, an option of the scope and angle
    selects). *)
Theorem settings_used_as_held (ls : LocalStorage) (now1 now2 : Z)
    (sys0 : System) (evs : list Event) :
  initialSystem ls now1 now2 = Some sys0 ->
  Forall offered evs ->
  (forall v,
      accessible ls = true ->
      items ls !! "art_settings_v6" = Some (Parses v) ->
      currentSettings (app sys0) = v)
  /\ (unusable ls "art_settings_v6" ->
      currentSettings (app sys0) = defaultSettings)
  /\ validSettings defaultSettings = true
  /\ (validSettings (currentSettings (app sys0)) = true ->
      validSettings (currentSettings (app (run evs sys0))) = true)
  /\ (forall correctArt nowId nowTs call,
        call ∈ (handleRunCorrection correctArt nowId nowTs
                  (app (run evs sys0))).2 ->
        pcSettings call = currentSettings (app (run evs sys0))).
Proof.
  intros Hinit Hoff.
  pose proof (Inv_initial ls now1 now2 sys0 Hinit) as HI.
  assert (Hcur : currentSettings (app sys0) = initSettings ls).
  { unfold initialSystem, initialState in Hinit.
    destruct (initSelectedPackIds ls (initPacks ls now1 now2));
      [| discriminate].
    injection Hinit as <-. reflexivity. }
  rewrite Hcur. repeat split.
  - intros v Ha Hv. unfold initSettings.
    now rewrite (loadSaved_parses ls _ v Ha Hv).
  - intros H. apply loadSaved_unusable in H. unfold initSettings.
    now rewrite H.
  - rewrite <- Hcur. now apply run_keeps_valid.
  - intros correctArt nowId nowTs call.
    apply handleRunCorrection_passes_settings.
Qed.

Lemma settings_used_as_held_witness :
  let evs := [Upload (Some sketch); SlideStrength 30;
              SelectScope "Face Priority"; SelectAngleTag "Profile";
              CheckFidelity false] in
  currentSettings (app freshSystem) = defaultSettings
  /\ validSettings (currentSettings (app (run evs freshSystem))) = true
  /\ field "strength" (currentSettings (app (run evs freshSystem))) = VNum 30.
Proof.
  intros evs.
  assert (Hoff : Forall offered evs).
  { repeat constructor; simpl; try lia;
      apply list_elem_of_In; simpl; tauto. }
  pose proof (settings_used_as_held emptyStorage 0 0 freshSystem evs
                eq_refl Hoff) as (_ & Hdef & _ & Hvalid & _).
  split; [apply Hdef; right; left; reflexivity |].
  split; [apply Hvalid; reflexivity | reflexivity].
Defined.

(** ** A successful run *)

(** X1: When the source cell holds an image and the provider answers with a
    result, one run of [handleRunCorrection] calls the provider once, with
    the source, the current settings object, the retrieved references and
    the dimensions; it stores the result, switches to [After], clears the
    error and the processing flag, and puts first in the history a session
    made of the source, the result, the two clock readings, the metrics of
    the answer and a new object holding the own properties of the current
    settings; these metrics become the current metrics.  The canvas shows
    the comparison in [After] unless the result is the empty string, in
    which case it shows the source alone. *)
Theorem run_success (correctArt : ProviderCall -> ProviderOutcome)
    (nowId nowTs : Z) (s : AppState) (img resultImage : string)
    (metrics : CorrectionMetrics.t) :
  originalImage s = Some img -> img <> "" ->
  let call := {| pcSource := img;
                 pcSettings := currentSettings s;
                 pcReferences := retrievedRefs s;
                 pcDimensions := imageDimensions s |} in
  correctArt call = Resolved resultImage metrics ->
  let s' := (handleRunCorrection correctArt nowId nowTs s).1 in
  let session := EditSession.mk (pretty nowId) img resultImage
                   (length (heap s)) nowTs metrics in
  (handleRunCorrection correctArt nowId nowTs s).2 = [call]
  /\ originalImage s' = Some img
  /\ correctedImage s' = Some resultImage
  /\ viewMode s' = After
  /\ errorMsg s' = None
  /\ isProcessing s' = false
  /\ history s' = session :: take 19 (history s)
  /\ heap s' = heap s ++ [VObj (ownEntries (currentSettings s))]
  /\ settings s' = settings s
  /\ currentMetrics s' = Some metrics
  /\ display s' = (if String.eqb resultImage ""
                   then ShowSource (Some img)
                   else ShowComparison (Some img) resultImage After).
Proof.
  intros Himg Hne call Hok.
  pose proof (handleRunCorrection_with_image correctArt nowId nowTs s img
                Himg Hne) as Hrun.
  simpl in Hrun. fold call in Hrun. rewrite Hrun, Hok. simpl.
  rewrite Himg. repeat split.
  unfold display. simpl. destruct (String.eqb resultImage ""); reflexivity.
Qed.

Lemma run_success_witness :
  let s := handleFileUpload (Some sketch) freshState in
  let s' := (handleRunCorrection providerOk 7 8 s).1 in
  correctedImage s' = Some "data:image/png;base64,RRRR"
  /\ viewMode s' = After
  /\ currentMetrics s' = Some someMetrics
  /\ display s' = ShowComparison (Some "data:image/png;base64,AAAA")
                                 "data:image/png;base64,RRRR" After.
Proof.
  assert (Hne : "data:image/png;base64,AAAA" <> "") by discriminate.
  pose proof (run_success providerOk 7 8
                (handleFileUpload (Some sketch) freshState)
                "data:image/png;base64,AAAA" "data:image/png;base64,RRRR"
                someMetrics eq_refl Hne eq_refl) as H.
  simpl in H. simpl. tauto.
Defined.

(** X2: An upload followed by a run.  Between the two the retrieval
    effect may store new references (it runs after the source changes when
    packs exist) or not run.  Either way the provider receives the uploaded
    data URL and the size of the decoded image, with the settings the state
    held and the references held at the click: those the effect stored, or
    the earlier ones when it did not run. *)
Theorem upload_then_run (correctArt : ProviderCall -> ProviderOutcome)
    (nowId nowTs : Z) (img : LoadedImage) (s : AppState)
    (effect : option (list ReferenceImage.t)) :
  base64 img <> "" ->
  let uploaded := handleFileUpload (Some img) s in
  let atClick := match effect with
                 | Some refs => setRetrievedRefs refs uploaded
                 | None => uploaded
                 end in
  (handleRunCorrection correctArt nowId nowTs atClick).2
  = [{| pcSource := base64 img;
        pcSettings := currentSettings s;
        pcReferences := match effect with
                        | Some refs => refs
                        | None => retrievedRefs s
                        end;
        pcDimensions := {| width := imgWidth img; height := imgHeight img |} |}].
Proof.
  intros Hne uploaded atClick. subst uploaded atClick.
  destruct effect as [refs|].
  - rewrite (handleRunCorrection_with_image correctArt nowId nowTs
               (setRetrievedRefs refs (handleFileUpload (Some img) s))
               (base64 img) eq_refl Hne).
    reflexivity.
  - rewrite (handleRunCorrection_with_image correctArt nowId nowTs
               (handleFileUpload (Some img) s) (base64 img) eq_refl Hne).
    reflexivity.
Qed.

Lemma upload_then_run_witness :
  let ref := ReferenceImage.mk "a1" "1" "data:1" ["Profile"] (Some (3 # 5)) in
  (handleRunCorrection providerBroken 1 2
     (setRetrievedRefs [ref] (handleFileUpload (Some sketch2) correctedState))).2
  = [{| pcSource := "data:image/png;base64,BBBB";
        pcSettings := defaultSettings;
        pcReferences := [ref];
        pcDimensions := {| width := 800; height := 600 |} |}].
Proof.
  intros ref.
  apply (upload_then_run providerBroken 1 2 sketch2 correctedState (Some [ref])).
  discriminate.
Defined.

(** ** The run button *)

Lemma clickRun_enabled (sys : System) :
  runButtonDisabled (app sys) = false ->
  exists img,
    originalImage (app sys) = Some img /\ img <> ""
    /\ step ClickRun sys
       = {| app := setIsProcessing true (setErrorMsg None (app sys));
            inflight := Some {| cOriginalImage := img;
                                cSettings := settings (app sys);
                                cRetrievedRefs := retrievedRefs (app sys);
                                cImageDimensions := imageDimensions (app sys) |} |}.
Proof.
  intros H. simpl. rewrite H.
  unfold runButtonDisabled in H. apply orb_false_iff in H as [_ H].
  apply negb_false_iff in H. unfold runBegin.
  destruct (originalImage (app sys)) as [img|]; [| discriminate].
  rewrite H. exists img. repeat split.
  simpl in H. intros ->. discriminate.
Qed.

(** X3: A click on the run button is ignored while a run is processing or
    while the source cell is empty: nothing changes, so the message "Upload
    an image first." is never produced through the button.  Otherwise the
    click clears the error, raises the processing flag and suspends one
    call that holds the source, the settings reference, the references and
    the dimensions of that moment. *)
Theorem click_run (sys : System) :
  (runButtonDisabled (app sys) = true -> step ClickRun sys = sys)
  /\ (runButtonDisabled (app sys) = false ->
      exists img,
        originalImage (app sys) = Some img /\ img <> ""
        /\ step ClickRun sys
           = {| app := setIsProcessing true (setErrorMsg None (app sys));
                inflight := Some {| cOriginalImage := img;
                                    cSettings := settings (app sys);
                                    cRetrievedRefs := retrievedRefs (app sys);
                                    cImageDimensions := imageDimensions (app sys) |} |}).
Proof.
  split; [| apply clickRun_enabled].
  intros H. simpl. now rewrite H.
Qed.

Lemma click_run_witness :
  step ClickRun freshSystem = freshSystem
  /\ isProcessing (app (step ClickRun (step (Upload (Some sketch)) freshSystem)))
     = true.
Proof.
  split.
  - apply (proj1 (click_run freshSystem)). reflexivity.
  - destruct (proj2 (click_run (step (Upload (Some sketch)) freshSystem))
                eq_refl) as (img & _ & _ & ->).
    reflexivity.
Defined.

(** ** The view-mode buttons when a result exists *)

(** X4: The Before button always works.  With a result image, a click on any
    of the three buttons stores its mode, and the canvas is then in that
    mode. *)
Theorem view_transition_with_result (mode : ViewMode) (s : AppState) :
  viewMode (clickViewMode Before s) = Before
  /\ (truthy (correctedImage s) = true ->
      clickViewMode mode s = setViewMode mode s
      /\ displayedMode (clickViewMode mode s) = mode).
Proof.
  split; [reflexivity |]. intros Hres.
  assert (Hclick : clickViewMode mode s = setViewMode mode s).
  { unfold clickViewMode, viewButtonDisabled. rewrite Hres.
    now rewrite andb_false_r. }
  rewrite Hclick. split; [reflexivity |].
  unfold displayedMode, display. simpl.
  destruct (correctedImage s) as [c|]; [| discriminate].
  simpl in Hres. rewrite Hres. destruct mode; reflexivity.
Qed.

Lemma view_transition_with_result_witness :
  displayedMode (clickViewMode Overlay correctedState) = Overlay
  /\ displayedMode (clickViewMode Before correctedState) = Before.
Proof.
  split.
  - apply (proj2 (view_transition_with_result Overlay correctedState)).
    reflexivity.
  - apply (proj2 (view_transition_with_result Before correctedState)).
    reflexivity.
Defined.

(** ** Replay and promotion *)

(** X5: A click on a history entry loads its pair of images and shows the
    comparison in [After]; it leaves the history, the settings and the
    error as they are.  Promoting right after makes the result of the
    entry the new source, with no result and the mode [Before]: this is how
    a past result is refined again. *)
Theorem replay_then_promote (session : EditSession.t) (s : AppState) :
  EditSession.resultImage session <> "" ->
  let s1 := replay session s in
  let s2 := handlePromoteToSource s1 in
  display s1 = ShowComparison (Some (EditSession.originalImage session))
                              (EditSession.resultImage session) After
  /\ history s1 = history s
  /\ settings s1 = settings s
  /\ errorMsg s1 = errorMsg s
  /\ originalImage s2 = Some (EditSession.resultImage session)
  /\ correctedImage s2 = None
  /\ viewMode s2 = Before
  /\ history s2 = history s.
Proof.
  intros Hne.
  assert (Ht : truthy (Some (EditSession.resultImage session)) = true).
  { simpl. destruct (String.eqb_spec (EditSession.resultImage session) "");
      [contradiction | reflexivity]. }
  unfold handlePromoteToSource, display. simpl in *. rewrite Ht.
  repeat split.
Qed.

Lemma replay_then_promote_witness :
  exists session,
    head (history correctedState) = Some session
    /\ originalImage (handlePromoteToSource (replay session freshState))
       = Some "data:image/png;base64,RRRR".
Proof.
  eexists. split; [reflexivity |].
  refine (proj1 (proj2 (proj2 (proj2 (proj2
            (replay_then_promote _ freshState _)))))).
  discriminate.
Defined.

(** X6: Promoting twice is promoting once: the first promotion clears the
    result, so the second finds none. *)
Theorem promote_idempotent (s : AppState) :
  handlePromoteToSource (handlePromoteToSource s) = handlePromoteToSource s.
Proof.
  unfold handlePromoteToSource at 2 3.
  destruct (truthy (correctedImage s)) eqn:H.
  - reflexivity.
  - unfold handlePromoteToSource. now rewrite H.
Qed.

(** ** The settings controls *)

Lemma field_setSettings (k k' : string) (v : Value) (s : AppState) :
  field k' (currentSettings (setSettings k v s))
  = if String.eqb k' k then v else field k' (currentSettings s).
Proof.
  rewrite currentSettings_setSettings. unfold field. simpl ownEntries.
  apply lookupField_setField.
Qed.

(** X7: When the settings cell holds an object, the handler of each
    control stores a new object with the own properties of the current one,
    in their order, in which the property the control stands for has the
    value sent: an own property of another name reads as it did.  The
    handlers of the scope select, the strength slider and the fidelity
    check box write the settings cell and no other cell of the state.  So
    does the handler of the angle select; the retrieval effect, which runs
    again after the angle has changed, may then store new references. *)
Theorem controls_write_one_field (s : AppState) (kvs : list (string * Value)) :
  currentSettings s = VObj kvs ->
  let written (k : string) (v : Value) (refs : list ReferenceImage.t) :=
    mkApp (originalImage s) (correctedImage s) (imageDimensions s)
          (isProcessing s) (errorMsg s) (viewMode s) (history s) (packs s)
          refs (selectedPackIds s) (length (heap s))
          (heap s ++ [VObj (setField k v kvs)]) in
  (forall value,
      changeScope value s = written "scope" (VStr value) (retrievedRefs s))
  /\ (forall value,
        changeStrength value s
        = written "strength" (VNum (inject_Z value)) (retrievedRefs s))
  /\ (forall checked,
        changeAbsoluteLineFidelity checked s
        = written "absoluteLineFidelity" (VBool checked) (retrievedRefs s))
  /\ (forall value (effect : option (list ReferenceImage.t)),
        match effect with
        | Some refs => setRetrievedRefs refs (changeAngleTag value s)
        | None => changeAngleTag value s
        end
        = written "angleTag" (VStr value)
                  (match effect with
                   | Some refs => refs
                   | None => retrievedRefs s
                   end))
  /\ (forall k v refs,
        currentSettings (written k v refs) = VObj (setField k v kvs)
        /\ forall k',
             lookupField k' (setField k v kvs)
             = if String.eqb k' k then v else lookupField k' kvs).
Proof.
  intros Hcur written.
  assert (Hset : forall k v,
             setSettings k v s = written k v (retrievedRefs s)).
  { intros k v. unfold setSettings, written. simpl. now rewrite Hcur. }
  split; [intros; apply Hset |]. split; [intros; apply Hset |].
  split; [intros; apply Hset |]. split.
  - intros value [refs|]; unfold changeAngleTag; rewrite Hset; reflexivity.
  - intros k v refs. split.
    + unfold written, currentSettings. simpl. apply deref_app_new.
    + intros k'. apply lookupField_setField.
Qed.

Lemma controls_write_one_field_witness :
  currentSettings (changeStrength 30 freshState)
  = VObj [("strength", VNum 30);
          ("linePreservation", VNum 85);
          ("mode", VStr "Proportion (Mode A)");
          ("angleTag", VStr "3/4 View");
          ("scope", VStr "Full Image");
          ("absoluteLineFidelity", VBool true)]
  /\ retrievedRefs (changeStrength 30 freshState) = retrievedRefs freshState
  /\ imageDimensions (changeStrength 30 freshState)
     = imageDimensions freshState.
Proof.
  pose proof (controls_write_one_field freshState _ eq_refl)
    as (_ & Hstrength & _).
  rewrite (Hstrength 30). repeat split.
Defined.

(** ** Invariants of the reachable states *)

Lemma RunInv_initial ls now1 now2 sys :
  initialSystem ls now1 now2 = Some sys -> RunInv sys.
Proof.
  unfold initialSystem, initialState. intros H.
  destruct (initSelectedPackIds ls (initPacks ls now1 now2)); [| discriminate].
  injection H as <-. unfold RunInv. simpl.
  split; [lia |].
  split; [split; [discriminate | intros [c Hc]; discriminate] |].
  split; [intros c Hc; discriminate | constructor].
Qed.

Lemma RunInv_unchanged (sys sys' : System) :
  (exists new, heap (app sys') = heap (app sys) ++ new) ->
  history (app sys') = history (app sys) ->
  isProcessing (app sys') = isProcessing (app sys) ->
  inflight sys' = inflight sys ->
  Inv sys -> RunInv sys -> RunInv sys'.
Proof.
  intros [new Hh] Hy Hp Hi (_ & I2 & _) (R1 & R2 & R3 & R4). unfold RunInv.
  rewrite Hh, Hy, Hp, Hi. repeat split; auto; try apply R2.
  rewrite Forall_forall in I2, R4. apply Forall_forall. intros e Hin.
  destruct (R4 e Hin) as [Hne [kvs Hkvs]]. destruct (I2 e Hin) as [Hlt _].
  split; [exact Hne |]. exists kvs. now rewrite deref_app_lt.
Qed.

Lemma RunInv_step (ev : Event) (sys : System) :
  Inv sys -> RunInv sys -> RunInv (step ev sys).
Proof.
  intros HI HR.
  assert (Hframe : forall sys',
             (exists new, heap (app sys') = heap (app sys) ++ new) ->
             history (app sys') = history (app sys) ->
             isProcessing (app sys') = isProcessing (app sys) ->
             inflight sys' = inflight sys -> RunInv sys').
  { intros sys' H1 H2 H3 H4. now apply (RunInv_unchanged sys sys'). }
  assert (Hsame : exists new, heap (app sys) = heap (app sys) ++ new).
  { exists []. now rewrite app_nil_r. }
  destruct ev; simpl;
    try (apply Hframe; simpl; auto; eexists; reflexivity; fail).
  - destruct file; apply Hframe; auto.
  - destruct (runButtonDisabled (app sys)) eqn:Hdis; [exact HR |].
    destruct (clickRun_enabled sys Hdis) as (img & Himg & Hne & Hstep).
    simpl in Hstep. rewrite Hdis in Hstep. rewrite Hstep.
    destruct HI as (_ & I2 & _). destruct HR as (R1 & R2 & R3 & R4).
    unfold RunInv. simpl. repeat split; eauto.
    intros c [= <-]. exact Hne.
  - destruct (inflight sys) as [c|] eqn:Hc; [| exact HR].
    destruct HI as (I1 & I2 & I3 & I4). destruct HR as (R1 & R2 & R3 & R4).
    assert (Hnone : false = true <-> @is_Some Closure None).
    { split; [discriminate | intros [x Hx]; discriminate]. }
    assert (Hno : forall c' : Closure, @None Closure = Some c' ->
                                       cOriginalImage c' <> "").
    { intros c' Hc'. discriminate. }
    destruct o; unfold RunInv; simpl.
    + split; [unfold append; rewrite length_take; lia |].
      split; [exact Hnone |]. split; [exact Hno |].
      unfold append. apply Forall_take. constructor.
      * simpl. split; [exact (R3 c Hc) |].
        eexists. apply deref_app_new.
      * rewrite Forall_forall in I2, R4. apply Forall_forall.
        intros e Hin. destruct (R4 e Hin) as [Hne [kvs Hkvs]].
        destruct (I2 e Hin) as [Hlt _].
        split; [exact Hne |]. exists kvs. now rewrite deref_app_lt.
    + split; [exact R1 |]. split; [exact Hnone |]. split; [exact Hno | exact R4].
    + split; [exact R1 |]. split; [exact Hnone |]. split; [exact Hno | exact R4].
  - unfold onApp, handlePromoteToSource.
    destruct (truthy (correctedImage (app sys))); apply Hframe; auto.
  - unfold onApp, clickViewMode.
    destruct (viewButtonDisabled mode (app sys)); apply Hframe; auto.
  - destruct (history (app sys) !! i); apply Hframe; auto.
  - destruct confirmed; [| apply Hframe; auto].
    destruct HR as (R1 & R2 & R3 & R4). unfold RunInv. simpl.
    split; [lia |]. split; [exact R2 |]. split; [exact R3 | constructor].
Qed.

Lemma reachable_RunInv (sys : System) : reachable sys -> RunInv sys.
Proof.
  induction 1 as [ls now1 now2 sys H | ev sys Hr IH].
  - exact (RunInv_initial ls now1 now2 sys H).
  - apply RunInv_step; [now apply reachable_Inv | exact IH].
Qed.

(** X8: In every reachable state the history holds at most 20 sessions. *)
Theorem history_bounded (sys : System) :
  reachable sys -> (length (history (app sys)) <= 20)%nat.
Proof. intros H. exact (proj1 (reachable_RunInv sys H)). Qed.

Lemma history_bounded_witness :
  (length (history (app correctedSystem)) <= 20)%nat.
Proof. exact (history_bounded correctedSystem correctedSystem_reachable). Defined.

(** X9: In every reachable state the processing flag is up exactly when a call
    of the provider is suspended, and then a click on the run button
    changes nothing: no second call can be started before the first has
    settled. *)
Theorem single_flight (sys : System) :
  reachable sys ->
  (isProcessing (app sys) = true <-> is_Some (inflight sys))
  /\ (is_Some (inflight sys) -> step ClickRun sys = sys).
Proof.
  intros H. destruct (reachable_RunInv sys H) as (_ & R2 & _).
  split; [exact R2 |]. intros Hin. apply R2 in Hin.
  simpl. unfold runButtonDisabled. rewrite Hin. reflexivity.
Qed.

Lemma single_flight_witness :
  let sys := run [Upload (Some sketch); ClickRun] freshSystem in
  is_Some (inflight sys) /\ step ClickRun sys = sys.
Proof.
  intros sys.
  assert (Hr : reachable sys).
  { apply reachable_run. apply (reachable_init emptyStorage 0 0). reflexivity. }
  assert (Hin : is_Some (inflight sys)) by (eexists; reflexivity).
  split; [exact Hin |].
  exact (proj2 (single_flight sys Hr) Hin).
Defined.

(** X10: In every reachable state every session of the history was made from a
    non-empty source image, and the settings it refers to are an object of
    the store, whatever the settings cell itself holds. *)
Theorem sessions_well_formed (sys : System) (e : EditSession.t) :
  reachable sys -> e ∈ history (app sys) ->
  EditSession.originalImage e <> ""
  /\ exists kvs,
       deref (heap (app sys)) (EditSession.settings e) = VObj kvs.
Proof.
  intros H Hin. destruct (reachable_RunInv sys H) as (_ & _ & _ & R4).
  rewrite Forall_forall in R4. exact (R4 e Hin).
Qed.

Lemma sessions_well_formed_witness :
  exists e,
    head (history (app correctedSystem)) = Some e
    /\ EditSession.originalImage e <> ""
    /\ exists kvs,
         deref (heap (app correctedSystem)) (EditSession.settings e) = VObj kvs.
Proof.
  eexists. split; [reflexivity |].
  apply (sessions_well_formed correctedSystem _ correctedSystem_reachable).
  apply list_elem_of_here.
Defined.

(** ** The footer *)

Lemma footerStatus_empty (s : AppState) :
  history s = [] -> footerStatus s = Some ReadyForCleanup.
Proof. unfold footerStatus, currentMetrics. intros ->. reflexivity. Qed.

(** X11: With an empty history the footer reads "Ready for Cleanup".  Once a
    session exists, the footer reads "Pass: Corrected for" followed by the
    angle of the current settings: after the angle select is changed it
    names the new angle, although the history is the same and the settings
    recorded in its sessions still are what they were. *)
Theorem footer_names_current_angle (sys : System) (value : string) :
  reachable sys ->
  (history (app sys) = [] -> footerStatus (app sys) = Some ReadyForCleanup)
  /\ (history (app sys) <> [] ->
      let sys' := step (SelectAngleTag value) sys in
      footerStatus (app sys') = Some (PassCorrectedFor (VStr value))
      /\ history (app sys') = history (app sys)
      /\ forall e, e ∈ history (app sys) ->
           deref (heap (app sys')) (EditSession.settings e)
           = deref (heap (app sys)) (EditSession.settings e)).
Proof.
  intros Hr. split; [apply footerStatus_empty |].
  intros Hne. simpl. split; [| split; [reflexivity |]].
  - unfold footerStatus, currentMetrics. simpl.
    destruct (history (app sys)) as [|e0 rest]; [contradiction |]. simpl.
    unfold changeAngleTag. rewrite currentSettings_setSettings. simpl.
    rewrite lookupField_setField. reflexivity.
  - intros e Hin. destruct (reachable_Inv sys Hr) as (_ & I2 & _).
    rewrite Forall_forall in I2. destruct (I2 e Hin) as [Hlt _].
    unfold changeAngleTag, setSettings. simpl. now apply deref_app_lt.
Qed.

Lemma footer_names_current_angle_witness :
  footerStatus (app correctedSystem) = Some (PassCorrectedFor (VStr "3/4 View"))
  /\ footerStatus (app (step (SelectAngleTag "Profile") correctedSystem))
     = Some (PassCorrectedFor (VStr "Profile"))
  /\ field "angleTag"
       (deref (heap (app (step (SelectAngleTag "Profile") correctedSystem))) 1%nat)
     = VStr "3/4 View".
Proof.
  split; [reflexivity |]. split; [| reflexivity].
  apply (proj2 (footer_names_current_angle correctedSystem "Profile"
                  correctedSystem_reachable)).
  discriminate.
Defined.

(** ** The pack check boxes *)

Lemma existsb_filter_out (id : string) (prev : list Value) :
  existsb (isStr id) (filter (fun pid => negb (isStr id pid)) prev) = false.
Proof.
  induction prev as [|x prev IH]; [reflexivity |].
  rewrite filter_cons. destruct (decide _) as [H | H]; [| exact IH].
  simpl. rewrite IH. apply Is_true_true in H. apply negb_true_iff in H.
  now rewrite H.
Qed.

Lemma isStr_other (id id' : string) (x : Value) :
  id' <> id -> isStr id x = true -> isStr id' x = false.
Proof.
  destruct x; simpl; try discriminate. intros Hne H.
  apply String.eqb_eq in H. subst. now apply String.eqb_neq.
Qed.

Lemma existsb_filter_other (id id' : string) (prev : list Value) :
  id' <> id ->
  existsb (isStr id') (filter (fun pid => negb (isStr id pid)) prev)
  = existsb (isStr id') prev.
Proof.
  intros Hne. induction prev as [|x prev IH]; [reflexivity |].
  rewrite filter_cons. destruct (decide _) as [H | H]; simpl.
  - now rewrite IH.
  - rewrite IH. apply Is_true_false in H. apply negb_false_iff in H.
    now rewrite (isStr_other id id' x Hne H).
Qed.

Lemma filter_out_absent (id : string) (prev : list Value) :
  existsb (isStr id) prev = false ->
  filter (fun pid => negb (isStr id pid)) prev = prev.
Proof.
  induction prev as [|x prev IH]; [reflexivity |]. simpl.
  intros H. apply orb_false_iff in H as [Hx Hrest].
  rewrite filter_cons, (IH Hrest). destruct (decide _) as [H | H];
    [reflexivity |].
  apply Is_true_false in H. rewrite Hx in H. discriminate.
Qed.

(** X12: Toggling a pack id in an array selection flips whether the id is
    selected and leaves the selection of every other id as it is; an id
    that was not selected is added at the end and toggling it again gives
    back the selection one started from; an id that was selected loses all
    its occurrences.  On the state, the toggle of an array selection never
    throws and writes the selection only. *)
Theorem toggle_flips_membership (id : string) (prev : list Value) :
  existsb (isStr id) (toggleIn id prev) = negb (existsb (isStr id) prev)
  /\ (forall id', id' <> id ->
        existsb (isStr id') (toggleIn id prev) = existsb (isStr id') prev)
  /\ (existsb (isStr id) prev = false ->
      toggleIn id prev = prev ++ [VStr id]
      /\ toggleIn id (toggleIn id prev) = prev)
  /\ (forall s, selectedPackIds s = VArr prev ->
        togglePackSelection id s
        = Some (setSelectedPackIds (VArr (toggleIn id prev)) s)).
Proof.
  unfold toggleIn. split; [| split; [| split]].
  - destruct (existsb (isStr id) prev) eqn:H; simpl.
    + apply existsb_filter_out.
    + rewrite existsb_app, H. simpl. now rewrite String.eqb_refl.
  - intros id' Hne. destruct (existsb (isStr id) prev) eqn:H.
    + now apply existsb_filter_other.
    + rewrite existsb_app. simpl.
      assert (Hf : String.eqb id id' = false) by (apply String.eqb_neq; auto).
      rewrite Hf. now rewrite !orb_false_r.
  - intros H. rewrite H. split; [reflexivity |].
    rewrite existsb_app. simpl. rewrite String.eqb_refl, orb_true_r.
    rewrite filter_app, (filter_out_absent id prev H).
    assert (Hlast : filter (fun pid => negb (isStr id pid)) [VStr id] = []).
    { rewrite filter_cons. destruct (decide _) as [Hd | Hd]; [| reflexivity].
      simpl in Hd. rewrite String.eqb_refl in Hd. destruct Hd. }
    rewrite Hlast. apply app_nil_r.
  - intros s Hs. unfold togglePackSelection. now rewrite Hs.
Qed.

Lemma toggle_flips_membership_witness :
  toggleIn "2" [VStr "1"; VStr "2"] = [VStr "1"]
  /\ toggleIn "3" [VStr "1"] = [VStr "1"] ++ [VStr "3"]
  /\ toggleIn "3" (toggleIn "3" [VStr "1"]) = [VStr "1"].
Proof.
  split; [reflexivity |].
  exact (proj1 (proj2 (proj2 (toggle_flips_membership "3" [VStr "1"])))
           eq_refl).
Defined.

(** A selection cell that does not hold an array: a string that contains
    the id, and any value that is neither an array nor a string, make the
    toggle throw; a string that does not contain the id is replaced by the
    array of its characters followed by the id. *)
Example toggle_on_other_values :
  togglePackSelection "1" (setSelectedPackIds (VStr "210") freshState) = None
  /\ togglePackSelection "1" (setSelectedPackIds VNull freshState) = None
  /\ (selectedPackIds <$>
        togglePackSelection "1" (setSelectedPackIds (VStr "20") freshState))
     = Some (VArr [VStr "2"; VStr "0"; VStr "1"]).
Proof. repeat split. Qed.

(** ** The reference library *)

Lemma wellFormedPack_inv (p : Value) :
  wellFormedPack p = true ->
  exists kvs pid imgs,
    p = VObj kvs /\ lookupField "id" kvs = VStr pid
    /\ lookupField "images" kvs = VArr imgs
    /\ forallb (imageOwnedBy pid) imgs = true.
Proof.
  destruct p as [| | | | | |kvs]; try discriminate. simpl.
  destruct (lookupField "id" kvs) as [| | | |pid| |] eqn:Hid;
    try discriminate.
  destruct (lookupField "images" kvs) as [| | | | |imgs|] eqn:Himgs;
    try discriminate.
  intros H. exists kvs, pid, imgs. auto.
Qed.

Lemma wellFormedPack_idIs (id : string) (p : Value) :
  wellFormedPack p = true -> is_Some (idIs id p).
Proof.
  intros H. destruct (wellFormedPack_inv p H) as (kvs & pid & imgs & -> & _).
  unfold idIs. simpl. eauto.
Qed.

Lemma mapM_wellFormed (f : Value -> option Value) (xs : list Value) :
  (forall p, wellFormedPack p = true ->
             exists p', f p = Some p' /\ wellFormedPack p' = true) ->
  forallb wellFormedPack xs = true ->
  exists ys, mapM f xs = Some ys
             /\ forallb wellFormedPack ys = true
             /\ length ys = length xs.
Proof.
  intros Hf. induction xs as [|x xs IH]; intros Hall.
  - exists []. auto.
  - simpl in Hall. apply andb_true_iff in Hall as [Hx Hxs].
    destruct (Hf x Hx) as (x' & Hfx & Hx').
    destruct (IH Hxs) as (ys & Hys & Hall' & Hlen).
    exists (x' :: ys). cbn. rewrite Hfx. cbn. cbn in Hys. rewrite Hys.
    simpl. rewrite Hx', Hall', Hlen. auto.
Qed.

Lemma filterThrow_forallb (P : Value -> bool) (keep : Value -> option bool)
    (xs : list Value) :
  (forall x, P x = true -> is_Some (keep x)) ->
  forallb P xs = true ->
  exists ys, filterThrow keep xs = Some ys
             /\ forallb P ys = true
             /\ (length ys <= length xs)%nat.
Proof.
  intros Hk. induction xs as [|x xs IH]; intros Hall.
  - exists []. auto.
  - simpl in Hall. apply andb_true_iff in Hall as [Hx Hxs].
    destruct (Hk x Hx) as [b Hb].
    destruct (IH Hxs) as (ys & Hys & Hall' & Hlen).
    simpl. rewrite Hb, Hys. destruct b.
    + exists (x :: ys). simpl. rewrite Hx, Hall'. repeat split. lia.
    + exists ys. repeat split; auto.
Qed.

Lemma filterThrow_spec (keep : Value -> option bool) (xs ys : list Value) :
  filterThrow keep xs = Some ys ->
  ys `sublist_of` xs
  /\ (forall y, y ∈ ys <-> y ∈ xs /\ keep y = Some true)
  /\ Forall (fun x => is_Some (keep x)) xs.
Proof.
  revert ys. induction xs as [|x xs IH]; intros ys; simpl.
  - intros [= <-]. split; [constructor |]. split; [| constructor].
    intros y. split; [intros H; inversion H | intros [H _]; inversion H].
  - destruct (keep x) as [b|] eqn:Hb; [| discriminate].
    destruct (filterThrow keep xs) as [rest|]; [| discriminate].
    destruct (IH rest eq_refl) as (Hsub & Hmem & Hall).
    intros [= <-]. split; [| split].
    + destruct b; [now apply sublist_skip | now apply sublist_cons].
    + intros y. destruct b.
      * rewrite !elem_of_cons, Hmem. split.
        -- intros [-> | [H1 H2]]; auto.
        -- intros [[-> | H1] H2]; auto.
      * rewrite elem_of_cons, Hmem. split.
        -- intros [H1 H2]; auto.
        -- intros [[-> | H1] H2]; auto. congruence.
    + constructor; eauto.
Qed.

Lemma imageOwnedBy_idIs (pid imgid : string) (img : Value) :
  imageOwnedBy pid img = true -> is_Some (negb <$> idIs imgid img).
Proof.
  destruct img; try discriminate. intros _. unfold idIs. simpl. eauto.
Qed.

Lemma filterThrow_filter (id : string) (xs ys : list Value) :
  filterThrow (fun p => negb <$> idIs id p) xs = Some ys ->
  ys = filter (fun p => idIs id p = Some false) xs
  /\ Forall (fun p => is_Some (idIs id p)) xs.
Proof.
  revert ys. induction xs as [|x xs IH]; intros ys; simpl.
  - intros [= <-]. split; [reflexivity | constructor].
  - destruct (idIs id x) as [b|] eqn:Hb; [| discriminate]. simpl.
    destruct (filterThrow (fun p => negb <$> idIs id p) xs) as [rest|];
      [| discriminate].
    destruct (IH rest eq_refl) as [-> Hall].
    intros [= <-]. split; [| constructor; eauto].
    rewrite filter_cons.
    destruct (decide (idIs id x = Some false)) as [Hd | Hd];
      rewrite Hb in Hd; destruct b; simpl;
      try reflexivity; try discriminate Hd; exfalso; apply Hd; reflexivity.
Qed.

Lemma Forall2_with_wellFormed (Q : Value -> Value -> Prop) (xs ys : list Value) :
  forallb wellFormedPack xs = true ->
  Forall2 Q xs ys ->
  Forall2 (fun x y => wellFormedPack x = true /\ Q x y) xs ys.
Proof.
  intros Hwf H. induction H as [|x y xs ys HQ H IH]; [constructor |].
  simpl in Hwf. apply andb_true_iff in Hwf as [Hx Hxs].
  constructor; auto.
Qed.

(** X13: The five callbacks of the library keep a well-formed catalog well
    formed and never throw on it: the catalog stays an array of pack
    objects with string ids whose images all carry the id of their pack.
    Adding appends one pack; renaming, uploading and deleting an image keep
    the number of packs; deleting a pack does not increase it.  Uploading
    leaves every pack with another id as it is and, in every pack with the
    given id, puts the uploaded images after the images already there, in
    the order of the upload, each with its own id and data and with the id
    of the pack as [packId]; the other properties of the pack are as
    before.  Deleting an image leaves every pack with another id as it is
    and, in every pack with the given id, keeps the images whose id is not
    the given image id, in their order, and the other properties of the
    pack.  The seed packs form a well-formed catalog. *)
Theorem library_keeps_catalog_well_formed (packs : Value) :
  wellFormedCatalog packs = true ->
  (forall rid n d now,
      exists xs, packs = VArr xs
                 /\ onAddPack rid n d now packs
                    = Some (VArr (xs ++ [seedPack rid n d now]))
                 /\ wellFormedCatalog (VArr (xs ++ [seedPack rid n d now])) = true)
  /\ (forall id n d,
        exists xs ys, packs = VArr xs
                      /\ onUpdatePack id n d packs = Some (VArr ys)
                      /\ wellFormedCatalog (VArr ys) = true
                      /\ length ys = length xs)
  /\ (forall id,
        exists xs ys, packs = VArr xs
                      /\ onDeletePack id packs = Some (VArr ys)
                      /\ wellFormedCatalog (VArr ys) = true
                      /\ (length ys <= length xs)%nat)
  /\ (forall id uploads,
        exists xs ys, packs = VArr xs
                      /\ onUploadToPack id uploads packs = Some (VArr ys)
                      /\ wellFormedCatalog (VArr ys) = true
                      /\ length ys = length xs
                      /\ Forall2
                           (fun p p' =>
                              (idIs id p = Some false /\ p' = p)
                              \/ (idIs id p = Some true
                                  /\ exists old,
                                       getProp "images" p = Some (VArr old)
                                       /\ getProp "images" p'
                                          = Some (VArr (old ++ (newImage id <$> uploads)))
                                       /\ forall k, k <> "images" ->
                                                    getProp k p' = getProp k p))
                           xs ys
                      /\ Forall (fun u =>
                                   getProp "packId" (newImage id u) = Some (VStr id)
                                   /\ getProp "id" (newImage id u) = Some (VStr u.1)
                                   /\ getProp "data" (newImage id u) = Some (VStr u.2))
                                uploads)
  /\ (forall pid imgid,
        exists xs ys, packs = VArr xs
                      /\ onDeleteImage pid imgid packs = Some (VArr ys)
                      /\ wellFormedCatalog (VArr ys) = true
                      /\ length ys = length xs
                      /\ Forall2
                           (fun p p' =>
                              (idIs pid p = Some false /\ p' = p)
                              \/ (idIs pid p = Some true
                                  /\ exists imgs,
                                       getProp "images" p = Some (VArr imgs)
                                       /\ getProp "images" p'
                                          = Some (VArr (filter
                                                          (fun i => idIs imgid i = Some false)
                                                          imgs))
                                       /\ forall k, k <> "images" ->
                                                    getProp k p' = getProp k p))
                           xs ys)
  /\ (forall now1 now2, wellFormedCatalog (seedPacks now1 now2) = true).
Proof.
  destruct packs as [| | | | |xs|]; try discriminate. simpl. intros Hwf.
  split; [| split; [| split; [| split; [| split]]]].
  - intros rid n d now. exists xs. split; [reflexivity |].
    split; [reflexivity |]. rewrite forallb_app, Hwf. reflexivity.
  - intros id n d.
    destruct (mapM_wellFormed
                (fun p => match idIs id p with
                          | Some true => Some (renamed n d p)
                          | Some false => Some p
                          | None => None
                          end) xs) as (ys & Hys & Hall & Hlen); [| exact Hwf |].
    + intros p Hp.
      destruct (wellFormedPack_inv p Hp) as (kvs & pid & imgs & -> & Hid & Himgs & Hown).
      unfold idIs. simpl. rewrite Hid. simpl.
      destruct (String.eqb pid id); [| eauto].
      eexists. split; [reflexivity |]. unfold renamed. simpl.
      rewrite !lookupField_setField. simpl. now rewrite Hid, Himgs.
    + exists xs, ys. unfold onUpdatePack. simpl. rewrite Hys. auto.
  - intros id.
    destruct (filterThrow_forallb wellFormedPack
                (fun p => negb <$> idIs id p) xs) as (ys & Hys & Hall & Hlen);
      [| exact Hwf |].
    + intros p Hp. destruct (wellFormedPack_idIs id p Hp) as [b ->].
      simpl. eauto.
    + exists xs, ys. unfold onDeletePack. simpl. rewrite Hys. auto.
  - intros id uploads.
    destruct (mapM_wellFormed
                (fun p =>
                   match idIs id p with
                   | Some true =>
                       match getProp "images" p ≫= iterate with
                       | Some old =>
                           Some (VObj (setField "images"
                                         (VArr (old ++ (newImage id <$> uploads)))
                                         (ownEntries p)))
                       | None => None
                       end
                   | Some false => Some p
                   | None => None
                   end) xs) as (ys & Hys & Hall & Hlen); [| exact Hwf |].
    + intros p Hp.
      destruct (wellFormedPack_inv p Hp) as (kvs & pid & imgs & -> & Hid & Himgs & Hown).
      unfold idIs. simpl. rewrite Hid. simpl.
      destruct (String.eqb_spec pid id) as [-> | Hne]; [| eauto].
      rewrite Himgs. simpl. eexists. split; [reflexivity |]. simpl.
      rewrite !lookupField_setField. simpl. rewrite Hid.
      rewrite forallb_app, Hown. simpl.
      induction uploads as [|u uploads IH]; [reflexivity |].
      simpl. rewrite String.eqb_refl. exact IH.
    + exists xs, ys. unfold onUploadToPack. simpl. rewrite Hys.
      split; [reflexivity |]. split; [reflexivity |]. split; [exact Hall |].
      split; [exact Hlen |]. split; [| apply Forall_forall; intros u _; auto].
      apply mapM_Some_1 in Hys.
      apply (Forall2_with_wellFormed _ xs ys Hwf) in Hys.
      eapply Forall2_impl; [exact Hys |].
      intros p p' [Hp Hf]. simpl in Hf.
      destruct (wellFormedPack_inv p Hp)
        as (kvs & pid & imgs & -> & Hid & Himgs & Hown).
      assert (HidIs : idIs id (VObj kvs) = Some (String.eqb pid id)).
      { unfold idIs. simpl. now rewrite Hid. }
      assert (Hget : getProp "images" (VObj kvs) = Some (VArr imgs)).
      { simpl. now rewrite Himgs. }
      rewrite HidIs, Hget in *. destruct (String.eqb pid id).
      * right. split; [reflexivity |]. exists imgs. split; [reflexivity |].
        simpl in Hf. injection Hf as <-. simpl.
        rewrite lookupField_setField. split; [reflexivity |].
        intros k Hk. rewrite lookupField_setField.
        apply String.eqb_neq in Hk. now rewrite Hk.
      * left. injection Hf as <-. auto.
  - intros pid imgid.
    destruct (mapM_wellFormed
                (fun p =>
                   match idIs pid p with
                   | Some true =>
                       match getProp "images" p ≫= asArray with
                       | Some imgs =>
                           match filterThrow (fun i => negb <$> idIs imgid i) imgs with
                           | Some kept =>
                               Some (VObj (setField "images" (VArr kept)
                                                    (ownEntries p)))
                           | None => None
                           end
                       | None => None
                       end
                   | Some false => Some p
                   | None => None
                   end) xs) as (ys & Hys & Hall & Hlen); [| exact Hwf |].
    + intros p Hp.
      destruct (wellFormedPack_inv p Hp) as (kvs & pid0 & imgs & -> & Hid & Himgs & Hown).
      unfold idIs at 1. simpl. rewrite Hid. simpl.
      destruct (String.eqb pid0 pid); [| eauto].
      rewrite Himgs. simpl.
      destruct (filterThrow_forallb (imageOwnedBy pid0)
                  (fun i => negb <$> idIs imgid i) imgs)
        as (kept & Hkept & Hown' & _); [| exact Hown |].
      * intros img. apply imageOwnedBy_idIs.
      * rewrite Hkept. eexists. split; [reflexivity |]. simpl.
        rewrite !lookupField_setField. simpl. now rewrite Hid.
    + exists xs, ys. unfold onDeleteImage. simpl. rewrite Hys.
      split; [reflexivity |]. split; [reflexivity |]. split; [exact Hall |].
      split; [exact Hlen |].
      apply mapM_Some_1 in Hys.
      apply (Forall2_with_wellFormed _ xs ys Hwf) in Hys.
      eapply Forall2_impl; [exact Hys |].
      intros p p' [Hp Hf]. simpl in Hf.
      destruct (wellFormedPack_inv p Hp)
        as (kvs & pid0 & imgs & -> & Hid & Himgs & Hown).
      assert (HidIs : idIs pid (VObj kvs) = Some (String.eqb pid0 pid)).
      { unfold idIs. simpl. now rewrite Hid. }
      assert (Hget : getProp "images" (VObj kvs) = Some (VArr imgs)).
      { simpl. now rewrite Himgs. }
      rewrite HidIs, Hget in *. destruct (String.eqb pid0 pid).
      * right. split; [reflexivity |]. exists imgs. split; [reflexivity |].
        simpl in Hf.
        destruct (filterThrow (fun i => negb <$> idIs imgid i) imgs)
          as [kept|] eqn:Hkept; [| discriminate].
        destruct (filterThrow_filter imgid imgs kept Hkept) as [-> _].
        injection Hf as <-. simpl.
        rewrite lookupField_setField. split; [reflexivity |].
        intros k Hk. rewrite lookupField_setField.
        apply String.eqb_neq in Hk. now rewrite Hk.
      * left. injection Hf as <-. auto.
  - reflexivity.
Qed.

Lemma library_keeps_catalog_well_formed_witness :
  wellFormedCatalog eyesCatalog = true
  /\ (exists ys,
        onUploadToPack "1" [("b7", "data:2"); ("c9", "data:3")] eyesCatalog
        = Some (VArr ys)
        /\ wellFormedCatalog (VArr ys) = true
        /\ (getProp "images" <$> head ys)
           = Some (Some (VArr [newImage "1" ("a1", "data:1");
                               newImage "1" ("b7", "data:2");
                               newImage "1" ("c9", "data:3")])))
  /\ (exists ys,
        onDeleteImage "1" "a1" eyesCatalog = Some (VArr ys)
        /\ wellFormedCatalog (VArr ys) = true).
Proof.
  pose proof (library_keeps_catalog_well_formed eyesCatalog eq_refl)
    as (_ & _ & _ & Hup & Hdel & _).
  split; [reflexivity |]. split.
  - destruct (Hup "1" [("b7", "data:2"); ("c9", "data:3")])
      as (xs & ys & _ & H1 & H2 & _).
    exists ys. split; [exact H1 |]. split; [exact H2 |].
    injection H1 as <-. reflexivity.
  - destruct (Hdel "1" "a1") as (xs & ys & _ & H1 & H2 & _). eauto.
Defined.

(** X14: When deleting a pack succeeds, the catalog was an array in which
    the id of every pack could be read, and the new catalog is that array
    filtered: the packs whose id is not the deleted one, each as often as
    and in the order in which it stood.  The callback writes the packs cell
    and no other cell: the selection is as before, so a deleted pack that
    was selected stays listed in the selection. *)
Theorem delete_pack_keeps_selection (id : string) (s s' : AppState) :
  inLibrary (onDeletePack id) s = Some s' ->
  exists xs,
    packs s = VArr xs
    /\ Forall (fun p => is_Some (idIs id p)) xs
    /\ s' = setPacks (VArr (filter (fun p => idIs id p = Some false) xs)) s
    /\ selectedPackIds s' = selectedPackIds s.
Proof.
  unfold inLibrary, onDeletePack. intros H.
  destruct (packs s) as [| | | | |xs|] eqn:Hp; try discriminate. simpl in H.
  destruct (filterThrow (fun p => negb <$> idIs id p) xs) as [ys|] eqn:Hf;
    [| discriminate].
  injection H as <-. exists xs.
  destruct (filterThrow_filter id xs ys Hf) as [-> Hall].
  repeat split. exact Hall.
Qed.

Lemma delete_pack_keeps_selection_witness :
  exists s',
    inLibrary (onDeletePack "1") freshState = Some s'
    /\ packs s' = VArr [seedPack "2" "Profile Jawlines" "Sharp chin silhouttes." 0]
    /\ selectedPackIds s' = VArr [VStr "1"; VStr "2"].
Proof.
  eexists. split; [reflexivity |].
  destruct (delete_pack_keeps_selection "1" freshState _ eq_refl)
    as (xs & _ & _ & _ & Hsel).
  split; [reflexivity | exact Hsel].
Defined.

(** Two packs that are the same value are both kept. *)
Example delete_pack_keeps_duplicates :
  onDeletePack "1" (VArr [seedPack "2" "a" "b" 0; seedPack "1" "c" "d" 0;
                          seedPack "2" "a" "b" 0])
  = Some (VArr [seedPack "2" "a" "b" 0; seedPack "2" "a" "b" 0]).
Proof. reflexivity. Qed.

(** ** Round trips in the library *)

Lemma filterThrow_keep_all (keep : Value -> option bool) (xs : list Value) :
  (forall x, x ∈ xs -> keep x = Some true) ->
  filterThrow keep xs = Some xs.
Proof.
  induction xs as [|x xs IH]; intros H; [reflexivity |].
  simpl. rewrite (H x) by apply list_elem_of_here.
  rewrite IH; [reflexivity |].
  intros y Hy. apply H. now apply list_elem_of_further.
Qed.

Lemma filterThrow_drop_last (keep : Value -> option bool) (xs : list Value)
    (last : Value) :
  (forall x, x ∈ xs -> keep x = Some true) ->
  keep last = Some false ->
  filterThrow keep (xs ++ [last]) = Some xs.
Proof.
  induction xs as [|x xs IH]; intros H Hlast; simpl.
  - now rewrite Hlast.
  - rewrite (H x) by apply list_elem_of_here.
    rewrite IH; [reflexivity | | exact Hlast].
    intros y Hy. apply H. now apply list_elem_of_further.
Qed.

Lemma setField_setField (k : string) (v w : Value)
    (kvs : list (string * Value)) :
  setField k v (setField k w kvs) = setField k v kvs.
Proof.
  induction kvs as [|[k0 v0] kvs IH]; simpl.
  - now rewrite String.eqb_refl.
  - destruct (String.eqb k k0) eqn:H; simpl.
    + now rewrite String.eqb_refl.
    + now rewrite H, IH.
Qed.

Lemma setField_same (k : string) (v : Value) (kvs : list (string * Value)) :
  lookupField k kvs = v -> v <> VUndefined -> setField k v kvs = kvs.
Proof.
  induction kvs as [|[k0 v0] kvs IH]; simpl; intros H Hne.
  - congruence.
  - destruct (String.eqb_spec k k0) as [-> | Hk]; [congruence |].
    now rewrite IH.
Qed.

Lemma mapM_round_trip (F G : Value -> option Value) (xs : list Value) :
  (forall x, x ∈ xs -> exists y, F x = Some y /\ G y = Some x) ->
  exists ys, mapM F xs = Some ys /\ mapM G ys = Some xs.
Proof.
  induction xs as [|x xs IH]; intros H.
  - exists []. auto.
  - destruct (H x) as (y & HF & HG); [apply list_elem_of_here |].
    destruct IH as (ys & HFs & HGs).
    { intros z Hz. apply H. now apply list_elem_of_further. }
    exists (y :: ys). cbn. rewrite HF, HG. cbn. cbn in HFs, HGs.
    now rewrite HFs, HGs.
Qed.

(** X15: Adding a pack and then deleting the pack with its id gives back the
    catalog, provided no pack of the catalog had that id. *)
Theorem add_then_delete_pack (rid n d : string) (now : Z) (xs : list Value) :
  (forall p, p ∈ xs -> idIs rid p = Some false) ->
  onAddPack rid n d now (VArr xs) ≫= onDeletePack rid = Some (VArr xs).
Proof.
  intros H. simpl. unfold onDeletePack. simpl.
  rewrite (filterThrow_drop_last _ xs (seedPack rid n d now)); [reflexivity | |].
  - intros p Hp. now rewrite (H p Hp).
  - unfold idIs. simpl. now rewrite String.eqb_refl.
Qed.

Lemma add_then_delete_pack_witness :
  onAddPack "k3" "Hands" "Hand poses." 5 (seedPacks 0 0) ≫= onDeletePack "k3"
  = Some (seedPacks 0 0).
Proof.
  apply (add_then_delete_pack "k3" "Hands" "Hand poses." 5).
  intros p Hp. apply elem_of_cons in Hp as [-> | Hp]; [reflexivity |].
  apply list_elem_of_singleton in Hp as ->. reflexivity.
Defined.

Example add_then_delete_pack_same_id :
  onAddPack "2" "Hands" "Hand poses." 5 (seedPacks 0 0) ≫= onDeletePack "2"
  = Some (VArr [seedPack "1" "Standard Anime Eyes" "Clean eye references." 0]).
Proof. reflexivity. Qed.

(** X16: Uploading one image to a pack and then deleting the image with its id
    from that pack gives back a well-formed catalog as it was, provided no
    image of a pack with that id already had the id of the upload. *)
Theorem upload_then_delete_image (id rid data : string) (xs : list Value) :
  wellFormedCatalog (VArr xs) = true ->
  (forall p imgs img,
      p ∈ xs -> idIs id p = Some true ->
      getProp "images" p = Some (VArr imgs) -> img ∈ imgs ->
      idIs rid img = Some false) ->
  onUploadToPack id [(rid, data)] (VArr xs) ≫= onDeleteImage id rid
  = Some (VArr xs).
Proof.
  intros Hwf Hfresh. simpl in Hwf.
  destruct (mapM_round_trip
    (fun p =>
       match idIs id p with
       | Some true =>
           match getProp "images" p ≫= iterate with
           | Some old =>
               Some (VObj (setField "images"
                             (VArr (old ++ (newImage id <$> [(rid, data)])))
                             (ownEntries p)))
           | None => None
           end
       | Some false => Some p
       | None => None
       end)
    (fun p =>
       match idIs id p with
       | Some true =>
           match getProp "images" p ≫= asArray with
           | Some imgs =>
               match filterThrow (fun i => negb <$> idIs rid i) imgs with
               | Some kept =>
                   Some (VObj (setField "images" (VArr kept) (ownEntries p)))
               | None => None
               end
           | None => None
           end
       | Some false => Some p
       | None => None
       end) xs) as (ys & HF & HG).
  - intros p Hp.
    assert (Hwp : wellFormedPack p = true).
    { rewrite forallb_forall in Hwf. apply Hwf. now apply list_elem_of_In. }
    destruct (wellFormedPack_inv p Hwp)
      as (kvs & pid & imgs & -> & Hid & Himgs & Hown).
    assert (HidIs : idIs id (VObj kvs) = Some (String.eqb pid id)).
    { unfold idIs. simpl. now rewrite Hid. }
    assert (Hget : getProp "images" (VObj kvs) = Some (VArr imgs)).
    { simpl. now rewrite Himgs. }
    specialize (Hfresh (VObj kvs) imgs). rewrite HidIs, Hget in *.
    destruct (String.eqb pid id) eqn:Heq.
    + simpl. eexists. split; [reflexivity |].
      unfold idIs at 1. simpl. rewrite !lookupField_setField. simpl.
      rewrite Hid. simpl. rewrite Heq.
      rewrite (filterThrow_drop_last _ imgs (newImage id (rid, data))).
      * rewrite setField_setField, (setField_same "images" (VArr imgs) kvs Himgs);
          [reflexivity | discriminate].
      * intros img Himg. now rewrite (Hfresh img Hp eq_refl eq_refl Himg).
      * unfold idIs. simpl. now rewrite String.eqb_refl.
    + exists (VObj kvs). split; [reflexivity |]. now rewrite HidIs.
  - unfold onUploadToPack. cbn [asArray]. rewrite HF.
    cbn [fmap option_fmap option_map mbind option_bind].
    unfold onDeleteImage. cbn [asArray]. now rewrite HG.
Qed.

Lemma upload_then_delete_image_witness :
  onUploadToPack "1" [("b7", "data:2")] eyesCatalog ≫= onDeleteImage "1" "b7"
  = Some eyesCatalog.
Proof.
  apply (upload_then_delete_image "1" "b7" "data:2"); [reflexivity |].
  intros p imgs img Hp Hid Himgs Himg.
  apply elem_of_cons in Hp as [-> | Hp].
  - injection Himgs as <-. apply list_elem_of_singleton in Himg as ->.
    reflexivity.
  - apply list_elem_of_singleton in Hp as ->. discriminate.
Defined.

(** ** Renaming a pack *)

(** X17: Renaming gives a catalog of the same length in which, position by
    position, a pack whose id is not the given one is the same pack, and a
    pack with the given id has the new name and description and every
    other property (its id and its images among them) as before. *)
Theorem update_pack_renames (id n d : string) (packs packs' : Value) :
  onUpdatePack id n d packs = Some packs' ->
  exists xs ys,
    packs = VArr xs /\ packs' = VArr ys
    /\ Forall2 (fun p p' =>
                  (idIs id p = Some false /\ p' = p)
                  \/ (idIs id p = Some true
                      /\ getProp "name" p' = Some (VStr n)
                      /\ getProp "description" p' = Some (VStr d)
                      /\ forall k, k <> "name" -> k <> "description" ->
                                   getProp k p' = getProp k p))
               xs ys.
Proof.
  unfold onUpdatePack. destruct packs as [| | | | |xs|]; try discriminate.
  simpl. destruct (mapM _ xs) as [ys|] eqn:Hm; [| discriminate].
  intros [= <-]. exists xs, ys. split; [reflexivity |]. split; [reflexivity |].
  apply mapM_Some_1 in Hm. eapply Forall2_impl; [exact Hm |].
  intros p p' Hp. simpl in Hp.
  destruct (idIs id p) as [[|]|] eqn:Hid; try discriminate.
  - right. injection Hp as <-. split; [reflexivity |].
    unfold renamed. simpl. rewrite !lookupField_setField. simpl.
    split; [reflexivity |]. split; [reflexivity |].
    intros k Hk1 Hk2. rewrite !lookupField_setField.
    apply String.eqb_neq in Hk1, Hk2. rewrite Hk1, Hk2.
    unfold idIs in Hid. destruct p; try discriminate; reflexivity.
  - left. injection Hp as <-. auto.
Qed.

Lemma update_pack_renames_witness :
  onUpdatePack "2" "Jaw" "Chins." (seedPacks 0 0)
  = Some (VArr [seedPack "1" "Standard Anime Eyes" "Clean eye references." 0;
                seedPack "2" "Jaw" "Chins." 0])
  /\ exists xs ys,
       seedPacks 0 0 = VArr xs
       /\ VArr [seedPack "1" "Standard Anime Eyes" "Clean eye references." 0;
                seedPack "2" "Jaw" "Chins." 0] = VArr ys
       /\ length xs = length ys.
Proof.
  split; [reflexivity |].
  destruct (update_pack_renames "2" "Jaw" "Chins." (seedPacks 0 0) _ eq_refl)
    as (xs & ys & H1 & H2 & H3).
  exists xs, ys. split; [exact H1 |]. split; [exact H2 |].
  exact (Forall2_length _ _ _ H3).
Defined.
